(** * Corabastos price bulletin parser: shallow embedding and properties

    The development embeds the table-extraction core of the two route
    handlers ([/api/prices] and [/api/prices/history]): the row parser
    [parseTableRow], the end-of-section test [isNewSection], the table
    scanner [extractPrices], the date helper [extractDate], and the
    parameter validation of the range handler.  The two [GET] handlers
    themselves (the single-day route, and the range route from the
    enumeration of the days to the report) are embedded over a record of
    host primitives ([Runtime.Host]).

    JavaScript strings are sequences of UTF-16 code units; they are
    modelled as lists of code units ([N]).  The string primitives of the
    host ([trim], [split], [indexOf], ...) are written out below as far as
    the handlers use them. *)

From Stdlib Require Import String Ascii.
From Stdlib Require Import List Bool Arith NArith ZArith Lia.
From Stdlib Require Import DecimalString Sorted.
Import ListNotations.

(** ** Code units and strings *)

Definition codeunit := N.
Definition jsstring := list codeunit.

(** An ASCII literal as a JavaScript string. *)
Definition str (s : string) : jsstring :=
  map N_of_ascii (list_ascii_of_string s).

Definition cu_eqb (a b : codeunit) : bool := N.eqb a b.

Definition dollar : codeunit := 36%N.
Definition comma : codeunit := 44%N.
Definition period : codeunit := 46%N.
Definition space : codeunit := 32%N.
Definition newline : codeunit := 10%N.
Definition hyphen : codeunit := 45%N.
Definition slash : codeunit := 47%N.
Definition zero_digit : codeunit := 48%N.

(** [\d] without the unicode flag: the ten ASCII digits. *)
Definition isDigit (c : codeunit) : bool := (48 <=? c)%N && (c <=? 57)%N.

(** [\w] without the unicode flag: ASCII letters, digits and underscore. *)
Definition isWordChar (c : codeunit) : bool :=
  isDigit c
  || ((65 <=? c)%N && (c <=? 90)%N)
  || ((97 <=? c)%N && (c <=? 122)%N)
  || (c =? 95)%N.

(** [\s], and the characters removed by [String.prototype.trim]:
    ECMAScript WhiteSpace and LineTerminator. *)
Definition isWhiteSpace (c : codeunit) : bool :=
  ((9 <=? c)%N && (c <=? 13)%N)
  || (c =? 32)%N || (c =? 160)%N || (c =? 5760)%N
  || ((8192 <=? c)%N && (c <=? 8202)%N)
  || (c =? 8232)%N || (c =? 8233)%N || (c =? 8239)%N
  || (c =? 8287)%N || (c =? 12288)%N || (c =? 65279)%N.

(** The class [[\d.,]] of the price pattern. *)
Definition isPriceChar (c : codeunit) : bool :=
  isDigit c || cu_eqb c period || cu_eqb c comma.

(** The class [[$,.]] removed before counting digits. *)
Definition isPricePunct (c : codeunit) : bool :=
  cu_eqb c dollar || cu_eqb c comma || cu_eqb c period.

(** ** String primitives *)

Fixpoint dropWhile (p : codeunit -> bool) (s : jsstring) : jsstring :=
  match s with
  | [] => []
  | c :: s' => if p c then dropWhile p s' else s
  end.

Fixpoint takeWhile (p : codeunit -> bool) (s : jsstring) : jsstring :=
  match s with
  | [] => []
  | c :: s' => if p c then c :: takeWhile p s' else []
  end.

(** [s.trim()] *)
Definition trim (s : jsstring) : jsstring :=
  rev (dropWhile isWhiteSpace (rev (dropWhile isWhiteSpace s))).

(** [s.replace(/\s+/g, ' ')]: every maximal run of white space becomes one
    space.  [inws] records that the previous code unit was white space. *)
Fixpoint collapseWs_go (inws : bool) (s : jsstring) : jsstring :=
  match s with
  | [] => []
  | c :: s' =>
      if isWhiteSpace c
      then (if inws then collapseWs_go true s' else space :: collapseWs_go true s')
      else c :: collapseWs_go false s'
  end.

Definition collapseWs (s : jsstring) : jsstring := collapseWs_go false s.

(** [s.split(/\s+/)]: the pieces between maximal runs of white space.  A
    leading or trailing run leaves an empty first or last piece, and the
    empty string splits into one empty piece.  [acc] is the current piece,
    reversed. *)
Fixpoint splitWs_go (acc : jsstring) (inws : bool) (s : jsstring) : list jsstring :=
  match s with
  | [] => [rev acc]
  | c :: s' =>
      if isWhiteSpace c
      then (if inws then splitWs_go [] true s'
            else rev acc :: splitWs_go [] true s')
      else splitWs_go (c :: acc) false s'
  end.

Definition splitWs (s : jsstring) : list jsstring := splitWs_go [] false s.

(** [s.split(sep)] for a one-unit separator. *)
Fixpoint splitOn_go (sep : codeunit) (acc : jsstring) (s : jsstring) : list jsstring :=
  match s with
  | [] => [rev acc]
  | c :: s' =>
      if cu_eqb c sep then rev acc :: splitOn_go sep [] s'
      else splitOn_go sep (c :: acc) s'
  end.

Definition splitOn (sep : codeunit) (s : jsstring) : list jsstring :=
  splitOn_go sep [] s.

(** [parts.join(' ')] *)
Fixpoint joinSpace (parts : list jsstring) : jsstring :=
  match parts with
  | [] => []
  | [p] => p
  | p :: rest => p ++ space :: joinSpace rest
  end.

Fixpoint isPrefix (t s : jsstring) : bool :=
  match t, s with
  | [], _ => true
  | x :: t', y :: s' => cu_eqb x y && isPrefix t' s'
  | _ :: _, [] => false
  end.

(** [s.indexOf(t)], counting from position [i]; [-1] when absent. *)
Fixpoint indexOf_from (i : Z) (s t : jsstring) : Z :=
  if isPrefix t s then i
  else match s with
       | [] => (-1)%Z
       | _ :: s' => indexOf_from (i + 1) s' t
       end.

Definition indexOf (s t : jsstring) : Z := indexOf_from 0 s t.

(** [s.includes(t)] *)
Definition includes (s t : jsstring) : bool := (0 <=? indexOf s t)%Z.

(** [s.lastIndexOf(t)], counting from position [i]; [-1] when absent. *)
Fixpoint lastIndexOf_from (i : Z) (s t : jsstring) : Z :=
  match s with
  | [] => if isPrefix t [] then i else (-1)%Z
  | _ :: s' =>
      let r := lastIndexOf_from (i + 1) s' t in
      if (r =? -1)%Z then (if isPrefix t s then i else (-1)%Z) else r
  end.

Definition lastIndexOf (s t : jsstring) : Z := lastIndexOf_from 0 s t.

Definition strlen (s : jsstring) : Z := Z.of_nat (length s).

Definition clampIndex (s : jsstring) (i : Z) : nat :=
  Z.to_nat (Z.min (Z.max i 0) (strlen s)).

(** [s.substring(a, b)]: both ends clamped to the string, swapped when
    out of order. *)
Definition substring (s : jsstring) (a b : Z) : jsstring :=
  let a' := clampIndex s a in
  let b' := clampIndex s b in
  let lo := Nat.min a' b' in
  let hi := Nat.max a' b' in
  firstn (hi - lo) (skipn lo s).

(** [s.substring(a)] *)
Definition substringFrom (s : jsstring) (a : Z) : jsstring :=
  substring s a (strlen s).

(** [s.replace(c, '')] for a one-unit string pattern: the first
    occurrence is removed. *)
Fixpoint removeFirst (c : codeunit) (s : jsstring) : jsstring :=
  match s with
  | [] => []
  | x :: s' => if cu_eqb x c then s' else x :: removeFirst c s'
  end.

(** [padStart(2, '0')] *)
Definition padStart2 (s : jsstring) : jsstring :=
  match s with
  | [] => [zero_digit; zero_digit]
  | [c] => [zero_digit; c]
  | _ => s
  end.

(** [s.match(/\$[\d.,]+/g)]: all matches, left to right.  The search
    resumes where the previous match ended; [skip] counts the code units
    still covered by that match.  A [$] not followed by a digit, comma or
    period does not match. *)
Fixpoint matchAllPrices (skip : nat) (s : jsstring) : list jsstring :=
  match s with
  | [] => []
  | c :: s' =>
      match skip with
      | S k => matchAllPrices k s'
      | O =>
          if cu_eqb c dollar then
            match takeWhile isPriceChar s' with
            | [] => matchAllPrices 0 s'
            | run => (c :: run) :: matchAllPrices (length run) s'
            end
          else matchAllPrices 0 s'
      end
  end.

(** With the [g] flag [match] returns [null] when nothing matches. *)
Definition matchPrices (s : jsstring) : option (list jsstring) :=
  match matchAllPrices 0 s with
  | [] => None
  | ms => Some ms
  end.

(** [arr.slice(-3)] *)
Definition sliceLast3 {A : Type} (l : list A) : list A :=
  skipn (length l - 3) l.

(** [/^\d+$/.test(s)] *)
Definition isAllDigits (s : jsstring) : bool :=
  match s with
  | [] => false
  | _ => forallb isDigit s
  end.

Definition isEmpty (s : jsstring) : bool :=
  match s with [] => true | _ => false end.

(** Case-insensitive comparison of an input code unit [c] with a
    lower-case pattern letter [p] (flag [i], no [u] flag).  The patterns
    below only use the letters a-z and a-acute; for these the only code
    units with the same canonical form are the letter and its upper-case
    form, 32 below it. *)
Definition ciEq (p c : codeunit) : bool :=
  cu_eqb c p || cu_eqb c (p - 32)%N.

(** [/^pat/i.test(s)] for a literal lower-case [pat]. *)
Fixpoint ciPrefix (pat s : jsstring) : bool :=
  match pat, s with
  | [], _ => true
  | p :: pat', c :: s' => ciEq p c && ciPrefix pat' s'
  | _ :: _, [] => false
  end.

(** ** Regular-expression combinators for the date patterns

    Each combinator takes the remaining input and a continuation for the
    rest of the pattern, and tries its alternatives in the order of a
    backtracking matcher: longest repetition first. *)

Section Combinators.
Variable A : Type.

(** A greedy [c+] for a character class [p]; [acc] is the text taken so
    far. *)
Fixpoint rePlus (p : codeunit -> bool) (acc : jsstring) (s : jsstring)
         (k : jsstring -> jsstring -> option A) : option A :=
  match s with
  | [] => None
  | c :: s' =>
      if p c then
        match rePlus p (acc ++ [c]) s' k with
        | Some r => Some r
        | None => k (acc ++ [c]) s'
        end
      else None
  end.

(** [\d{1,2}]: two digits when possible, then one. *)
Definition reDigits12 (s : jsstring)
           (k : jsstring -> jsstring -> option A) : option A :=
  match s with
  | a :: rest =>
      if isDigit a then
        match rest with
        | b :: rest' =>
            if isDigit b then
              match k [a; b] rest' with
              | Some r => Some r
              | None => k [a] rest
              end
            else k [a] rest
        | [] => k [a] rest
        end
      else None
  | [] => None
  end.

(** [\d{4}] *)
Definition reDigits4 (s : jsstring)
           (k : jsstring -> jsstring -> option A) : option A :=
  match s with
  | a :: b :: c :: d :: rest =>
      if isDigit a && isDigit b && isDigit c && isDigit d
      then k [a; b; c; d] rest else None
  | _ => None
  end.

(** A literal code unit. *)
Definition reChar (ch : codeunit) (s : jsstring)
           (k : jsstring -> option A) : option A :=
  match s with
  | c :: rest => if cu_eqb c ch then k rest else None
  | [] => None
  end.

(** A literal lower-case word under the [i] flag. *)
Fixpoint reWordCI (pat : jsstring) (s : jsstring)
         (k : jsstring -> option A) : option A :=
  match pat with
  | [] => k s
  | p :: pat' =>
      match s with
      | c :: rest => if ciEq p c then reWordCI pat' rest k else None
      | [] => None
      end
  end.

(** [text.match(re)] without the [g] flag: the match at the leftmost
    position where the pattern [m] succeeds. *)
Fixpoint reSearch (m : jsstring -> option A) (s : jsstring) : option A :=
  match m s with
  | Some r => Some r
  | None => match s with
            | [] => None
            | _ :: s' => reSearch m s'
            end
  end.
End Combinators.

Arguments rePlus {A} p acc s k.
Arguments reDigits12 {A} s k.
Arguments reDigits4 {A} s k.
Arguments reChar {A} ch s k.
Arguments reWordCI {A} pat s k.
Arguments reSearch {A} m s.

(** ** Records *)

(** [interface ProductPrice], declared alike in both route files. *)
Record ProductPrice := mkProductPrice {
  name : jsstring;
  presentation : jsstring;
  quantity : jsstring;
  unit_ : jsstring;
  extraQualityPrice : jsstring;
  firstQualityPrice : jsstring;
  unitPrice : jsstring;
  previousDayVariation : jsstring
}.

(** The local variables of the scanning loop of [extractPrices]. *)
Record ScanState := mkScanState {
  inTable : bool;
  headerFound : bool;
  headerLines : list jsstring;
  productos : list ProductPrice
}.

Definition initialScan : ScanState :=
  {| inTable := false; headerFound := false; headerLines := []; productos := [] |}.

(** [text.split('\n').map((line) => line.trim()).filter((line) => line.length > 0)] *)
Definition splitLines (text : jsstring) : list jsstring :=
  filter (fun line => (0 <? length line)) (map trim (splitOn newline text)).

(** Non-ASCII letters of the keyword tables. *)
Definition a_acute : codeunit := 225%N.
Definition i_acute : codeunit := 237%N.
Definition o_acute : codeunit := 243%N.

Arguments str s%_string.

(** ** The single-day route ([/api/prices]) *)

Module Prices.

(** [cleanPrice]: [price.replace('$', '').trim()] *)
Definition cleanPrice (price : jsstring) : jsstring :=
  trim (removeFirst dollar price).

(** [line.replace(/\s+/g, ' ').trim()] *)
Definition normalize (line : jsstring) : jsstring :=
  trim (collapseWs line).

(** The filter on price matches: at least four code units remain once
    [$], [,] and [.] are removed. *)
Definition isValidPrice (price : jsstring) : bool :=
  let digitsOnly := filter (fun c => negb (isPricePunct c)) price in
  (4 <=? length digitsOnly).

(** [priceMatches?.filter(...)]: undefined when there is no match. *)
Definition validPricesOf (normalized : jsstring) : option (list jsstring) :=
  option_map (filter isValidPrice) (matchPrices normalized).

(** The valid price tokens of a line, none when [match] gave [null]. *)
Definition validPriceTokens (line : jsstring) : list jsstring :=
  match validPricesOf (normalize line) with
  | Some validPrices => validPrices
  | None => []
  end.

Definition parseTableRow (line : jsstring) : option ProductPrice :=
  let normalized := normalize line in
  match validPricesOf normalized with
  | None => None
  | Some validPrices =>
      if length validPrices <? 3 then None else
      let lastThreePrices := sliceLast3 validPrices in
      let price0 := nth 0 lastThreePrices [] in
      let price1 := nth 1 lastThreePrices [] in
      let price2 := nth 2 lastThreePrices [] in
      let firstPriceIndex := indexOf normalized price0 in
      if (firstPriceIndex =? -1)%Z then None else
      let beforePrices := trim (substring normalized 0 firstPriceIndex) in
      let beforeParts := splitWs beforePrices in
      let lastPriceIndex := lastIndexOf normalized price2 in
      let afterLastPrice :=
        trim (substringFrom normalized (lastPriceIndex + strlen price2)) in
      let variation := afterLastPrice in
      if length beforeParts <? 4 then None else
      let n := length beforeParts in
      let unit := nth (n - 1) beforeParts [] in
      let quantity := nth (n - 2) beforeParts [] in
      let presentation := nth (n - 3) beforeParts [] in
      let name := joinSpace (firstn (n - 3) beforeParts) in
      if isEmpty name || isEmpty presentation
         || negb (isAllDigits quantity) || isEmpty unit
      then None else
      Some {| name := trim name;
              presentation := trim presentation;
              quantity := trim quantity;
              unit_ := trim unit;
              extraQualityPrice := dollar :: cleanPrice price0;
              firstQualityPrice := dollar :: cleanPrice price1;
              unitPrice := dollar :: cleanPrice price2;
              previousDayVariation :=
                if isEmpty (trim variation) then str "N/A" else trim variation |}
  end.

Definition sectionIndicators : list jsstring :=
  [ str "p" ++ [a_acute] ++ str "gina";
    str "total";
    str "resumen";
    str "nota";
    str "fuente" ].

Definition isNewSection (line : jsstring) : bool :=
  existsb (fun pattern => ciPrefix pattern line) sectionIndicators.

Definition headerKeywords : list jsstring :=
  [ str "nombre";
    str "presentaci" ++ [o_acute] ++ str "n";
    str "cantidad";
    str "unidad";
    str "medida";
    str "precio";
    str "calidad";
    str "extra";
    str "primera";
    str "unidad";
    str "variaci" ++ [o_acute] ++ str "n";
    str "d" ++ [i_acute] ++ str "a";
    str "anterior" ].

Definition requiredHeaderWords : list jsstring :=
  [ str "nombre";
    str "presentaci" ++ [o_acute] ++ str "n";
    str "cantidad";
    str "precio" ].

Section Scanner.
(** [String.prototype.toLowerCase] is a host primitive defined by the
    Unicode case tables; the scanner is parametric in it. *)
Variable toLowerCase : jsstring -> jsstring.

Definition hasHeaderKeyword (originalLine : jsstring) : bool :=
  let line := toLowerCase originalLine in
  existsb (fun keyword => includes line keyword) headerKeywords.

(** The number of required words found in the collected header
    lines: [foundRequiredWords.length]. *)
Definition foundRequiredWords (collected : list jsstring) : nat :=
  let combinedHeaders := toLowerCase (joinSpace collected) in
  length (filter (fun word => includes combinedHeaders word) requiredHeaderWords).

(** The second half of the loop body: [if (headerFound && inTable) ...]. *)
Definition scanRow (st : ScanState) (originalLine : jsstring) : ScanState :=
  if headerFound st && inTable st then
    if hasHeaderKeyword originalLine && (0 <? length (productos st)) then st
    else
      match parseTableRow originalLine with
      | Some row =>
          {| inTable := inTable st; headerFound := headerFound st;
             headerLines := headerLines st;
             productos := productos st ++ [row] |}
      | None =>
          if (length originalLine =? 0) || isNewSection originalLine
          then {| inTable := false; headerFound := headerFound st;
                  headerLines := headerLines st;
                  productos := productos st |}
          else st
      end
  else st.

(** One iteration of the loop over the lines. *)
Definition scanLine (st : ScanState) (originalLine : jsstring) : ScanState :=
  if hasHeaderKeyword originalLine && negb (headerFound st) then
    let collected := headerLines st ++ [originalLine] in
    if 3 <=? foundRequiredWords collected then
      {| inTable := true; headerFound := true;
         headerLines := collected; productos := productos st |}
    else
      scanRow {| inTable := inTable st; headerFound := headerFound st;
                 headerLines := collected; productos := productos st |}
              originalLine
  else if headerFound st && negb (inTable st) then
    scanRow {| inTable := inTable st; headerFound := headerFound st;
               headerLines := []; productos := productos st |}
            originalLine
  else scanRow st originalLine.

Definition scanLines (st : ScanState) (lines : list jsstring) : ScanState :=
  fold_left scanLine lines st.

Definition extractPrices (text : jsstring) : list ProductPrice :=
  productos (scanLines initialScan (splitLines text)).
End Scanner.

(** [/(\d{1,2})\/(\d{1,2})\/(\d{4})/] at the start of [s]: the three
    groups. *)
Definition reDayMonthYear (s : jsstring) : option (jsstring * jsstring * jsstring) :=
  reDigits12 s (fun d s1 =>
    reChar slash s1 (fun s2 =>
      reDigits12 s2 (fun m s3 =>
        reChar slash s3 (fun s4 =>
          reDigits4 s4 (fun y _ => Some (d, m, y)))))).

(** [/(\d{4})-(\d{1,2})-(\d{1,2})/] at the start of [s]: the whole
    match. *)
Definition reYearMonthDay (s : jsstring) : option jsstring :=
  reDigits4 s (fun y s1 =>
    reChar hyphen s1 (fun s2 =>
      reDigits12 s2 (fun m s3 =>
        reChar hyphen s3 (fun s4 =>
          reDigits12 s4 (fun d _ => Some (y ++ hyphen :: m ++ hyphen :: d)))))).

(** [/(\d{1,2})\s+de\s+(\w+)\s+de\s+(\d{4})/i] at the start of [s]: the
    three groups. *)
Definition reDayDeMonthDeYear (s : jsstring) : option (jsstring * jsstring * jsstring) :=
  reDigits12 s (fun d s1 =>
    rePlus isWhiteSpace [] s1 (fun _ s2 =>
      reWordCI (str "de") s2 (fun s3 =>
        rePlus isWhiteSpace [] s3 (fun _ s4 =>
          rePlus isWordChar [] s4 (fun m s5 =>
            rePlus isWhiteSpace [] s5 (fun _ s6 =>
              reWordCI (str "de") s6 (fun s7 =>
                rePlus isWhiteSpace [] s7 (fun _ s8 =>
                  reDigits4 s8 (fun y _ => Some (d, m, y)))))))))).

(** The loop over [datePatterns]: the first two patterns return from
    their branch; a match of the third pattern has no branch and the
    loop ends. *)
Definition extractDate (text : jsstring) : option jsstring :=
  match reSearch reDayMonthYear text with
  | Some (d, m, y) => Some (y ++ hyphen :: padStart2 m ++ hyphen :: padStart2 d)
  | None =>
      match reSearch reYearMonthDay text with
      | Some whole => Some whole
      | None =>
          match reSearch reDayDeMonthDeYear text with
          | Some _ => None
          | None => None
          end
      end
  end.

End Prices.

(** ** The range route ([/api/prices/history]) *)

Module History.

(** [cleanPrice] of this file's [parseTableRow]. *)
Definition cleanPrice (price : jsstring) : jsstring :=
  trim (removeFirst dollar price).

Definition parseTableRow (line : jsstring) : option ProductPrice :=
  let normalized := trim (collapseWs line) in
  let priceMatches := matchPrices normalized in
  let validPrices :=
    option_map
      (filter (fun price =>
                 let digitsOnly := filter (fun c => negb (isPricePunct c)) price in
                 4 <=? length digitsOnly))
      priceMatches in
  match validPrices with
  | None => None
  | Some validPrices =>
      if length validPrices <? 3 then None else
      let lastThreePrices := sliceLast3 validPrices in
      let price0 := nth 0 lastThreePrices [] in
      let price1 := nth 1 lastThreePrices [] in
      let price2 := nth 2 lastThreePrices [] in
      let firstPriceIndex := indexOf normalized price0 in
      if (firstPriceIndex =? -1)%Z then None else
      let beforePrices := trim (substring normalized 0 firstPriceIndex) in
      let beforeParts := splitWs beforePrices in
      let lastPriceIndex := lastIndexOf normalized price2 in
      let afterLastPrice :=
        trim (substringFrom normalized (lastPriceIndex + strlen price2)) in
      let variation := afterLastPrice in
      if length beforeParts <? 4 then None else
      let n := length beforeParts in
      let unit := nth (n - 1) beforeParts [] in
      let quantity := nth (n - 2) beforeParts [] in
      let presentation := nth (n - 3) beforeParts [] in
      let name := joinSpace (firstn (n - 3) beforeParts) in
      if isEmpty name || isEmpty presentation
         || negb (isAllDigits quantity) || isEmpty unit
      then None else
      Some {| name := trim name;
              presentation := trim presentation;
              quantity := trim quantity;
              unit_ := trim unit;
              extraQualityPrice := dollar :: cleanPrice price0;
              firstQualityPrice := dollar :: cleanPrice price1;
              unitPrice := dollar :: cleanPrice price2;
              previousDayVariation :=
                if isEmpty (trim variation) then str "N/A" else trim variation |}
  end.

Definition isNewSection (line : jsstring) : bool :=
  existsb (fun pattern => ciPrefix pattern line)
    [ str "p" ++ [a_acute] ++ str "gina"; str "total"; str "resumen";
      str "nota"; str "fuente" ].

Section Scanner.
Variable toLowerCase : jsstring -> jsstring.

Definition headerKeywords : list jsstring :=
  [ str "nombre";
    str "presentaci" ++ [o_acute] ++ str "n";
    str "cantidad";
    str "unidad";
    str "medida";
    str "precio";
    str "calidad";
    str "extra";
    str "primera";
    str "unidad";
    str "variaci" ++ [o_acute] ++ str "n";
    str "d" ++ [i_acute] ++ str "a";
    str "anterior" ].

Definition requiredHeaderWords : list jsstring :=
  [ str "nombre"; str "presentaci" ++ [o_acute] ++ str "n";
    str "cantidad"; str "precio" ].

(** The loop body of [extractPrices], with [continue] as an early
    result. *)
Definition scanLine (st : ScanState) (originalLine : jsstring) : ScanState :=
  let line := toLowerCase originalLine in
  let hasHeaderKeyword :=
    existsb (fun keyword => includes line keyword) headerKeywords in
  let rows (st : ScanState) : ScanState :=
    if headerFound st && inTable st then
      if hasHeaderKeyword && (0 <? length (productos st)) then st
      else
        match parseTableRow originalLine with
        | Some row =>
            {| inTable := inTable st; headerFound := headerFound st;
               headerLines := headerLines st;
               productos := productos st ++ [row] |}
        | None =>
            if (length originalLine =? 0) || isNewSection originalLine
            then {| inTable := false; headerFound := headerFound st;
                    headerLines := headerLines st;
                    productos := productos st |}
            else st
        end
    else st in
  if hasHeaderKeyword && negb (headerFound st) then
    let collected := headerLines st ++ [originalLine] in
    let combinedHeaders := toLowerCase (joinSpace collected) in
    let foundRequiredWords :=
      filter (fun word => includes combinedHeaders word) requiredHeaderWords in
    if 3 <=? length foundRequiredWords then
      {| inTable := true; headerFound := true;
         headerLines := collected; productos := productos st |}
    else
      rows {| inTable := inTable st; headerFound := headerFound st;
              headerLines := collected; productos := productos st |}
  else if headerFound st && negb (inTable st) then
    rows {| inTable := inTable st; headerFound := headerFound st;
            headerLines := []; productos := productos st |}
  else rows st.

Definition extractPrices (text : jsstring) : list ProductPrice :=
  productos (fold_left scanLine (splitLines text) initialScan).
End Scanner.

(** *** Parameter validation of the [GET] handler *)

(** What the handler does to the outside world, in order. *)
Inductive Effect :=
| FetchPdf (day : Z)
| PdfParse (day : Z)
| ExtractPrices (text : jsstring).

Inductive Response (Payload : Type) :=
| JsonError (status : Z) (error : jsstring)
| JsonOk (payload : Payload).

Arguments JsonError {Payload} status error.
Arguments JsonOk {Payload} payload.

(** [/^\d{4}-\d{2}-\d{2}$/.test(s)] *)
Definition dateRegex (s : jsstring) : bool :=
  match s with
  | [y1; y2; y3; y4; h1; m1; m2; h2; d1; d2] =>
      isDigit y1 && isDigit y2 && isDigit y3 && isDigit y4
      && cu_eqb h1 hyphen && isDigit m1 && isDigit m2
      && cu_eqb h2 hyphen && isDigit d1 && isDigit d2
  | _ => false
  end.

(** [!param] for the result of [searchParams.get]: [null] and the empty
    string are falsy. *)
Definition isMissing (param : option jsstring) : bool :=
  match param with
  | None => true
  | Some s => isEmpty s
  end.

Definition dquote : codeunit := 34%N.

Definition msgRequired : jsstring :=
  str "Both " ++ [dquote] ++ str "from" ++ [dquote] ++ str " and "
  ++ [dquote] ++ str "to" ++ [dquote]
  ++ str " date parameters are required. Format: YYYY-MM-DD".

Definition msgFormat : jsstring :=
  str "Invalid date format. Use YYYY-MM-DD (e.g., 2025-11-20)".

Definition msgInvalid : jsstring :=
  str "Invalid date. Please provide valid dates in format YYYY-MM-DD".

Definition msgOrder : jsstring :=
  [dquote] ++ str "from" ++ [dquote] ++ str " date must be before or equal to "
  ++ [dquote] ++ str "to" ++ [dquote] ++ str " date".

Section Handler.
Variable Payload : Type.

(** [new Date(s).getTime()]: the time value, [None] for [NaN].  Which
    strings the host rejects is defined by the host. *)
Variable dateTime : jsstring -> option Z.

(** The remainder of the handler once the four checks have passed:
    the enumeration of the days, the batched downloads, [pdfParse],
    [extractPrices] and the summary.  It is the only part of the
    handler that fetches or parses. *)
Variable processRange :
  jsstring -> jsstring -> Z -> Z -> list Effect * Response Payload.

Definition GET (fromParam toParam : option jsstring)
  : list Effect * Response Payload :=
  if isMissing fromParam || isMissing toParam then
    ([], JsonError 400 msgRequired)
  else
    match fromParam, toParam with
    | Some fromParam, Some toParam =>
        if negb (dateRegex fromParam) || negb (dateRegex toParam) then
          ([], JsonError 400 msgFormat)
        else
          match dateTime fromParam, dateTime toParam with
          | Some fromDate, Some toDate =>
              if (toDate <? fromDate)%Z then ([], JsonError 400 msgOrder)
              else processRange fromParam toParam fromDate toDate
          | _, _ => ([], JsonError 400 msgInvalid)
          end
    | _, _ => ([], JsonError 400 msgRequired)
    end.
End Handler.

Arguments GET {Payload} dateTime processRange fromParam toParam.

End History.

(** ** The host of the route handlers *)

Module Runtime.

(** A thrown value: whether it is an [Error] object, its [message], and
    [String(error)]. *)
Record Thrown := mkThrown {
  isError : bool;
  errorMessage : jsstring;
  errorString : jsstring
}.

(** The result of an awaited call: it throws or it returns. *)
Inductive Outcome (A : Type) :=
| Throws (e : Thrown)
| Returns (a : A).

Arguments Throws {A} e.
Arguments Returns {A} a.

Definition Buffer := list N.

(** What the handlers use of a [fetch] response. *)
Record FetchResponse := mkFetchResponse {
  ok : bool;
  responseStatus : Z;
  arrayBuffer : Outcome Buffer
}.

(** The primitives the handlers take from their environment.  A [Date]
    is its time value; [nextDay] is the time value after
    [setDate(getDate() + 1)]; [fetch] covers the abort by time-out, which
    makes it throw. *)
Record Host := mkHost {
  toLowerCase : jsstring -> jsstring;
  dateTime : jsstring -> option Z;
  now : Z;
  getFullYear : Z -> Z;
  getMonth : Z -> Z;
  getDate : Z -> Z;
  nextDay : Z -> Z;
  fetch : jsstring -> Outcome FetchResponse;
  pdfParse : Buffer -> Outcome jsstring
}.

(** [String(n)] for an integer [n]. *)
Definition numberToString (n : Z) : jsstring :=
  str (NilZero.string_of_int (Z.to_int n)).

Section Addresses.
Variable h : Host.

(** [const year = date.getFullYear()] as it appears in a template. *)
Definition yearOf (date : Z) : jsstring := numberToString (getFullYear h date).

(** [String(date.getMonth() + 1).padStart(2, '0')] *)
Definition monthOf (date : Z) : jsstring :=
  padStart2 (numberToString (getMonth h date + 1)).

(** [String(date.getDate()).padStart(2, '0')] *)
Definition dayOf (date : Z) : jsstring :=
  padStart2 (numberToString (getDate h date)).

(** The address of the bulletin of a day; both routes build it with the
    same template. *)
Definition pdfUrl (date : Z) : jsstring :=
  str "https://corabastos.com.co/wp-content/uploads/"
  ++ yearOf date ++ str "/" ++ monthOf date
  ++ str "/Boletin_diario_" ++ (yearOf date ++ monthOf date ++ dayOf date)
  ++ str ".pdf".

(** [`${year}-${month}-${day}`] *)
Definition dateLabel (date : Z) : jsstring :=
  yearOf date ++ hyphen :: monthOf date ++ hyphen :: dayOf date.
End Addresses.

End Runtime.

(** ** The [GET] handler of the single-day route *)

Module Daily.
Import Runtime.

Inductive Event :=
| Fetch (url : jsstring)
| PdfParse
| ConsoleError.

Inductive Response :=
| JsonError (status : Z) (error : jsstring) (details : option jsstring)
| JsonPrices (fecha : jsstring) (totalProductos : nat)
             (productos : list ProductPrice) (fuente : jsstring).

Definition msgFormat : jsstring :=
  str "Invalid date format. Use YYYY-MM-DD (e.g., 2025-11-20)".

Definition msgInvalid : jsstring :=
  str "Invalid date. Please provide a valid date in format YYYY-MM-DD".

Definition msgDownload : jsstring := str "Could not download the PDF".

Definition msgProcessing : jsstring := str "Error processing the PDF".

Section Handler.
Variable h : Host.

(** The [catch] clause: the error is logged and reported with
    [String(error)]. *)
Definition caught (trace : list Event) (e : Thrown) : list Event * Response :=
  (trace ++ [ConsoleError], JsonError 500 msgProcessing (Some (errorString e))).

(** From the URL to the response, for the day [targetDate]. *)
Definition serve (targetDate : Z) : list Event * Response :=
  let url := pdfUrl h targetDate in
  match fetch h url with
  | Throws e => caught [Fetch url] e
  | Returns response =>
      if negb (ok response) then ([Fetch url], JsonError 500 msgDownload None)
      else
        match arrayBuffer response with
        | Throws e => caught [Fetch url] e
        | Returns buffer =>
            match pdfParse h buffer with
            | Throws e => caught [Fetch url; PdfParse] e
            | Returns text =>
                let productos := Prices.extractPrices (toLowerCase h) text in
                let fecha :=
                  match Prices.extractDate text with
                  | Some found =>
                      if isEmpty found then dateLabel h targetDate else found
                  | None => dateLabel h targetDate
                  end in
                ([Fetch url; PdfParse],
                 JsonPrices fecha (length productos) productos url)
            end
        end
  end.

(** [dateParam] is the result of [searchParams.get('date')]; the test
    [if (dateParam)] fails for [null] and for the empty string, and the
    regular expression is the one of the range route. *)
Definition GET (dateParam : option jsstring) : list Event * Response :=
  match dateParam with
  | Some param =>
      if isEmpty param then serve (now h)
      else if negb (History.dateRegex param) then
        ([], JsonError 400 msgFormat None)
      else
        match dateTime h param with
        | None => ([], JsonError 400 msgInvalid None)
        | Some targetDate => serve targetDate
        end
  | None => serve (now h)
  end.
End Handler.

End Daily.

(** ** The range route after validation *)

Module Range.
Import Runtime.

Inductive Status := status_success | status_error | status_not_found.

(** [interface DateSummary] *)
Record DateSummary := mkDateSummary {
  date : jsstring;
  totalProductos : nat;
  status : Status;
  fuente : jsstring;
  error : option jsstring
}.

(** The body of the answer to a valid request. *)
Record Report := mkReport {
  from : jsstring;
  to : jsstring;
  totalDays : nat;
  processedDays : nat;
  successfulDays : nat;
  failedDays : nat;
  reportTotalProductos : nat;
  summary : list DateSummary;
  message : jsstring
}.

(** What [Promise.allSettled] reports for one task. *)
Inductive Settled :=
| Fulfilled (value : DateSummary)
| Rejected (reasonMessage : option jsstring).

Definition isSuccess (s : DateSummary) : bool :=
  match status s with status_success => true | _ => false end.

Definition msgProcessed : jsstring :=
  str "Data processed successfully. Products are ready to be stored in database. Use individual date endpoints to retrieve full product details if needed.".

Section Handler.
Variable h : Host.

(** The [catch] clause of a task. *)
Definition failed (day : Z) (e : Thrown) : nat * DateSummary :=
  (0, {| date := dateLabel h day; totalProductos := 0;
         status := status_error; fuente := pdfUrl h day;
         error := Some (if isError e then errorMessage e else errorString e) |}).

(** The task run for one day: the amount it adds to the running total
    and the entry it resolves to. *)
Definition processDay (day : Z) : nat * DateSummary :=
  let url := pdfUrl h day in
  match fetch h url with
  | Throws e => failed day e
  | Returns response =>
      if negb (ok response) then
        (0, {| date := dateLabel h day; totalProductos := 0;
               status := status_not_found; fuente := url;
               error := Some (str "PDF not found or could not be downloaded ("
                              ++ numberToString (responseStatus response)
                              ++ str ")") |})
      else
        match arrayBuffer response with
        | Throws e => failed day e
        | Returns buffer =>
            match pdfParse h buffer with
            | Throws e => failed day e
            | Returns text =>
                let productos := History.extractPrices (toLowerCase h) text in
                (length productos,
                 {| date := dateLabel h day;
                    totalProductos := length productos;
                    status := status_success; fuente := url;
                    error := None |})
            end
        end
  end.

(** [batchResults.forEach]: the value of a fulfilled task, a placeholder
    for a rejected one. *)
Definition pushResult (summary : list DateSummary) (result : Settled)
  : list DateSummary :=
  match result with
  | Fulfilled value => summary ++ [value]
  | Rejected reasonMessage =>
      summary ++ [{| date := str "unknown"; totalProductos := 0;
                     status := status_error; fuente := [];
                     error := Some (match reasonMessage with
                                    | Some m => if isEmpty m
                                                then str "Unknown error" else m
                                    | None => str "Unknown error"
                                    end) |}]
  end.

(** The loop that builds [dates]; [None] when [fuel] iterations do not
    reach the end. *)
Fixpoint enumerateDays (fuel : nat) (currentDate toDate : Z) : option (list Z) :=
  if (currentDate <=? toDate)%Z then
    match fuel with
    | O => None
    | S fuel' =>
        option_map (cons currentDate)
                   (enumerateDays fuel' (nextDay h currentDate) toDate)
    end
  else Some [].

(** The loop over the batches of five days, from index [i]; the tasks of
    a batch are all settled before the next batch starts.  [None] when
    [fuel] iterations do not reach the end. *)
Fixpoint runBatches (fuel i : nat) (dates : list Z)
         (summary : list DateSummary) (total : nat)
  : option (list DateSummary * nat) :=
  if i <? length dates then
    match fuel with
    | O => None
    | S fuel' =>
        let batch := firstn 5 (skipn i dates) in
        let tasks := map processDay batch in
        let total' := fold_left (fun t task => t + fst task) tasks total in
        let batchResults := map (fun task => Fulfilled (snd task)) tasks in
        runBatches fuel' (i + 5) dates (fold_left pushResult batchResults summary)
                   total'
    end
  else Some (summary, total).

(** The handler from the checked dates on.  The batch loop runs at most
    once per day. *)
Definition processRange (fuel : nat) (fromParam toParam : jsstring)
           (fromDate toDate : Z) : option Report :=
  match enumerateDays fuel fromDate toDate with
  | None => None
  | Some dates =>
      match runBatches (length dates) 0 dates [] 0 with
      | None => None
      | Some (summary, total) =>
          Some {| from := fromParam; to := toParam;
                  totalDays := length dates;
                  processedDays := length summary;
                  successfulDays := length (filter isSuccess summary);
                  failedDays :=
                    length (filter (fun s => negb (isSuccess s)) summary);
                  reportTotalProductos := total;
                  summary := summary;
                  message := msgProcessed |}
      end
  end.
End Handler.

End Range.

(** ** A host for closed examples

    [String.prototype.toLowerCase] restricted to strings of code units
    below U+0100, where it maps A-Z and the Latin-1 capitals (U+00C0 to
    U+00DE without the multiplication sign) 32 up and leaves every other
    code unit alone.  Code units from U+0100 on are left alone here; all
    examples below stay below U+0100. *)
Definition lowerLatin1 (c : codeunit) : codeunit :=
  if ((65 <=? c)%N && (c <=? 90)%N)
     || ((192 <=? c)%N && (c <=? 222)%N && negb (c =? 215)%N)
  then (c + 32)%N else c.

Definition toLowerCaseLatin1 (s : jsstring) : jsstring := map lowerLatin1 s.

(** A sample host [Date] for closed examples: the date-only form
    [YYYY-MM-DD] of the ECMAScript date-time string format, read as UTC
    midnight.  A month outside 1..12 or a day outside the month gives
    [NaN]. *)
Definition digitValue (c : codeunit) : Z := Z.of_N (c - 48).

Definition isLeapYear (y : Z) : bool :=
  ((y mod 4 =? 0) && negb (y mod 100 =? 0) || (y mod 400 =? 0))%Z.

Definition daysInMonth (y m : Z) : Z :=
  if (m =? 2)%Z then (if isLeapYear y then 29 else 28)%Z
  else if ((m =? 4) || (m =? 6) || (m =? 9) || (m =? 11))%Z then 30%Z
  else 31%Z.

(** Days from 1970-01-01 to the civil date [y]-[m]-[d]. *)
Definition daysFromCivil (y m d : Z) : Z :=
  let y' := (if m <=? 2 then y - 1 else y)%Z in
  let era := (y' / 400)%Z in
  let yoe := (y' - era * 400)%Z in
  let mp := ((m + 9) mod 12)%Z in
  let doy := ((153 * mp + 2) / 5 + d - 1)%Z in
  let doe := (yoe * 365 + yoe / 4 - yoe / 100 + doy)%Z in
  (era * 146097 + doe - 719468)%Z.

Definition isoDateTime (s : jsstring) : option Z :=
  match s with
  | [y1; y2; y3; y4; _; m1; m2; _; d1; d2] =>
      if History.dateRegex s then
        let y := (1000 * digitValue y1 + 100 * digitValue y2
                  + 10 * digitValue y3 + digitValue y4)%Z in
        let m := (10 * digitValue m1 + digitValue m2)%Z in
        let d := (10 * digitValue d1 + digitValue d2)%Z in
        if ((1 <=? m) && (m <=? 12) && (1 <=? d) && (d <=? daysInMonth y m))%Z
        then Some (86400000 * daysFromCivil y m d)%Z
        else None
      else None
  | _ => None
  end.

(** A stand-in for the rest of the range handler in closed examples: it
    fetches the first day and answers. *)
Definition sampleRange (_ _ : jsstring) (fromDate toDate : Z)
  : list History.Effect * History.Response Z :=
  ([History.FetchPdf fromDate], History.JsonOk (toDate - fromDate)%Z).

(** ** Sample inputs *)

(** Lines joined with newlines, as a bulletin text. *)
Fixpoint unlines (ls : list jsstring) : jsstring :=
  match ls with
  | [] => []
  | [l] => l
  | l :: rest => l ++ newline :: unlines rest
  end.

Definition lineNombre : jsstring := str "Nombre".
Definition linePresentacion : jsstring := str "Presentaci" ++ [o_acute] ++ str "n".
Definition lineCantidad : jsstring := str "Cantidad".
Definition lineHeader : jsstring :=
  str "Nombre Presentaci" ++ [o_acute] ++ str "n Cantidad Unidad".
Definition linePlain : jsstring := str "Bogota D.C.".
Definition rowValenton : jsstring :=
  str "VALENTON KILO 1 KILO $35,000 $35,000 $35,000 Estable".
Definition rowTomate : jsstring :=
  str "TOMATE KILO 2 KILO $3,000 $3,100 $3,200".
Definition lineTotalPrecios : jsstring := str "Total precios".
Definition lineTotal : jsstring := str "Total".

Definition recordValenton : ProductPrice :=
  {| name := str "VALENTON"; presentation := str "KILO"; quantity := str "1";
     unit_ := str "KILO"; extraQualityPrice := str "$35,000";
     firstQualityPrice := str "$35,000"; unitPrice := str "$35,000";
     previousDayVariation := str "Estable" |}.

Definition recordTomate : ProductPrice :=
  {| name := str "TOMATE"; presentation := str "KILO"; quantity := str "2";
     unit_ := str "KILO"; extraQualityPrice := str "$3,000";
     firstQualityPrice := str "$3,100"; unitPrice := str "$3,200";
     previousDayVariation := str "N/A" |}.

(** ** A sample host

    A host for closed examples: UTC dates, one day is 86400000 ms, and
    a network on which only the bulletin of 2025-11-21 exists. *)

Definition msPerDay : Z := 86400000%Z.

(** The civil date (year, month 1..12, day) of a day count from
    1970-01-01. *)
Definition civilFromDays (days : Z) : Z * Z * Z :=
  let z := (days + 719468)%Z in
  let era := (z / 146097)%Z in
  let doe := (z - era * 146097)%Z in
  let yoe := ((doe - doe / 1460 + doe / 36524 - doe / 146096) / 365)%Z in
  let doy := (doe - (365 * yoe + yoe / 4 - yoe / 100))%Z in
  let mp := ((5 * doy + 2) / 153)%Z in
  let d := (doy - (153 * mp + 2) / 5 + 1)%Z in
  let m := (if mp <? 10 then mp + 3 else mp - 9)%Z in
  ((if m <=? 2 then yoe + era * 400 + 1 else yoe + era * 400)%Z, m, d).

Definition sameString (a b : jsstring) : bool := isPrefix a b && isPrefix b a.

Definition sampleBulletin : jsstring :=
  unlines [lineHeader; rowValenton; rowTomate].

Definition sampleUrl : jsstring :=
  str "https://corabastos.com.co/wp-content/uploads/2025/11/Boletin_diario_20251121.pdf".

Definition sampleHost : Runtime.Host :=
  {| Runtime.toLowerCase := toLowerCaseLatin1;
     Runtime.dateTime := isoDateTime;
     Runtime.now := 1763683200000%Z;
     Runtime.getFullYear := fun t => fst (fst (civilFromDays (t / msPerDay)));
     Runtime.getMonth := fun t => (snd (fst (civilFromDays (t / msPerDay))) - 1)%Z;
     Runtime.getDate := fun t => snd (civilFromDays (t / msPerDay));
     Runtime.nextDay := fun t => (t + msPerDay)%Z;
     Runtime.fetch := fun url =>
       if sameString url sampleUrl
       then Runtime.Returns
              {| Runtime.ok := true; Runtime.responseStatus := 200;
                 Runtime.arrayBuffer := Runtime.Returns sampleBulletin |}
       else Runtime.Returns
              {| Runtime.ok := false; Runtime.responseStatus := 404;
                 Runtime.arrayBuffer := Runtime.Returns [] |};
     Runtime.pdfParse := fun buffer => Runtime.Returns buffer |}.

(** ** Notions used in the statements *)

(** [t] occurs in [s] at offset [k]. *)
Definition occursAt (s t : jsstring) (k : nat) : Prop :=
  isPrefix t (skipn k s) = true.

(** A price token: [$] followed by at least one digit, comma or period. *)
Definition isPriceToken (t : jsstring) : Prop :=
  exists body, t = dollar :: body /\ body <> [] /\ forallb isPriceChar body = true.

(** The valid currency tokens found in a text: the matches of the price
    pattern, left to right, that keep at least four code units once [$],
    [,] and [.] are removed. *)
Definition currencyTokens (s : jsstring) : list jsstring :=
  filter Prices.isValidPrice (matchAllPrices 0 s).

(** The statement that an end marker met in the table always closes it:
    whenever the scanner is in the table and the next line fails to parse
    and matches an end marker, the table is closed and the records of the
    whole text are those produced before that line. *)
Definition endMarkerAlwaysCloses (toLowerCase : jsstring -> jsstring) : Prop :=
  forall text pre line rest,
    splitLines text = pre ++ line :: rest ->
    headerFound (Prices.scanLines toLowerCase initialScan pre) = true ->
    inTable (Prices.scanLines toLowerCase initialScan pre) = true ->
    Prices.parseTableRow line = None ->
    Prices.isNewSection line = true ->
    inTable (Prices.scanLines toLowerCase initialScan (pre ++ [line])) = false
    /\ Prices.extractPrices toLowerCase text
       = productos (Prices.scanLines toLowerCase initialScan pre).


(** A word: a non-empty string without white space. *)
Definition wsFree (w : jsstring) : bool :=
  forallb (fun c => negb (isWhiteSpace c)) w.

Definition isWord (w : jsstring) : bool := negb (isEmpty w) && wsFree w.

Definition dollarFree (w : jsstring) : bool :=
  forallb (fun c => negb (cu_eqb c dollar)) w.

(** White space occurs only as single spaces; [prev] tells that the
    code unit before was white space. *)
Fixpoint spaced_go (prev : bool) (s : jsstring) : bool :=
  match s with
  | [] => true
  | c :: s' =>
      if isWhiteSpace c
      then negb prev && cu_eqb c space && spaced_go true s'
      else spaced_go false s'
  end.

(** The words of a normalized line that lie before the first occurrence
    of the first of the three chosen prices: [beforeParts]. *)
Definition leadingWords (line : jsstring) : list jsstring :=
  let normalized := Prices.normalize line in
  let price0 := nth 0 (sliceLast3 (currencyTokens line)) [] in
  splitWs (trim (substring normalized 0 (indexOf normalized price0))).

(** A word without [$]. *)
Definition plainWord (w : jsstring) : bool := isWord w && dollarFree w.

(** The digits and separators of a valid price: what follows the [$]. *)
Definition priceBody (b : jsstring) : bool :=
  forallb isPriceChar b && Prices.isValidPrice (dollar :: b).

(** A canonical string: words separated by single spaces. *)
Definition canonical (s : jsstring) : Prop :=
  spaced_go true s = true
  /\ match rev s with [] => True | c :: _ => isWhiteSpace c = false end.

(** [l1] is [l2] with some elements left out, the order kept. *)
Inductive Subsequence {A : Type} : list A -> list A -> Prop :=
| Subsequence_nil : Subsequence [] []
| Subsequence_skip x l1 l2 : Subsequence l1 l2 -> Subsequence l1 (x :: l2)
| Subsequence_take x l1 l2 : Subsequence l1 l2 -> Subsequence (x :: l1) (x :: l2).

(** One or two digits. *)
Definition digits12 (g : jsstring) : Prop :=
  forallb isDigit g = true /\ (length g = 1 \/ length g = 2).

(** Exactly four digits; exactly two digits. *)
Definition fourDigits (s : jsstring) : bool :=
  match s with
  | [a; b; c; d] => isDigit a && isDigit b && isDigit c && isDigit d
  | _ => false
  end.

Definition twoDigits (s : jsstring) : bool :=
  match s with
  | [a; b] => isDigit a && isDigit b
  | _ => false
  end.

(** * Properties *)

(** ** Character classes *)

Lemma cu_eqb_eq a b : cu_eqb a b = true <-> a = b.
Proof. unfold cu_eqb. apply N.eqb_eq. Qed.

Lemma isPriceChar_not_ws c : isPriceChar c = true -> isWhiteSpace c = false.
Proof.
  unfold isPriceChar, isDigit, isWhiteSpace, cu_eqb, period, comma.
  intros H.
  repeat first [ rewrite orb_true_iff in H | rewrite andb_true_iff in H
               | rewrite N.leb_le in H | rewrite N.eqb_eq in H ].
  repeat rewrite orb_false_iff.
  repeat rewrite andb_false_iff.
  repeat rewrite N.leb_gt.
  repeat rewrite N.eqb_neq.
  lia.
Qed.

Lemma isDigit_priceChar c : isDigit c = true -> isPriceChar c = true.
Proof. unfold isPriceChar. intros ->. reflexivity. Qed.

Lemma isDigit_not_ws c : isDigit c = true -> isWhiteSpace c = false.
Proof. intros H. apply isPriceChar_not_ws, isDigit_priceChar, H. Qed.

(** ** [trim] *)

Lemma dropWhile_app_keep p s c t :
  p c = false ->
  dropWhile p (s ++ c :: t) = dropWhile p s ++ c :: t.
Proof.
  intros Hc. induction s as [|x s IH]; simpl.
  - rewrite Hc. reflexivity.
  - destruct (p x); simpl; auto.
Qed.

Lemma dropWhile_head p s c s' :
  dropWhile p s = c :: s' -> p c = false.
Proof.
  induction s as [|x s IH]; simpl; [discriminate|].
  destruct (p x) eqn:E; auto.
  intros H. inversion H; subst. exact E.
Qed.

Lemma dropWhile_fix p s :
  match s with [] => True | c :: _ => p c = false end ->
  dropWhile p s = s.
Proof. destruct s as [|c s]; simpl; auto. intros ->. reflexivity. Qed.

(** A string that neither starts nor ends with white space is its own
    trimming. *)
Lemma trim_fix s :
  match s with [] => True | c :: _ => isWhiteSpace c = false end ->
  match rev s with [] => True | c :: _ => isWhiteSpace c = false end ->
  trim s = s.
Proof.
  intros H1 H2. unfold trim.
  rewrite (dropWhile_fix _ s H1).
  rewrite (dropWhile_fix _ (rev s) H2).
  apply rev_involutive.
Qed.

Lemma trim_shape s :
  match trim s with [] => True | c :: _ => isWhiteSpace c = false end /\
  match rev (trim s) with [] => True | c :: _ => isWhiteSpace c = false end.
Proof.
  unfold trim. rewrite rev_involutive.
  set (a := dropWhile isWhiteSpace s).
  set (b := dropWhile isWhiteSpace (rev a)).
  assert (Hb : match b with [] => True | c :: _ => isWhiteSpace c = false end).
  { destruct b as [|c b'] eqn:E; auto. eapply dropWhile_head. exact E. }
  split; [|exact Hb].
  destruct a as [|c a'] eqn:Ea.
  - simpl in *. subst b. simpl. exact I.
  - assert (Hc : isWhiteSpace c = false) by (eapply dropWhile_head; exact Ea).
    subst b. simpl rev.
    rewrite dropWhile_app_keep by exact Hc.
    rewrite rev_app_distr. simpl. exact Hc.
Qed.

Lemma trim_idempotent s : trim (trim s) = trim s.
Proof. destruct (trim_shape s). apply trim_fix; assumption. Qed.

Lemma trim_no_ws s :
  forallb (fun c => negb (isWhiteSpace c)) s = true -> trim s = s.
Proof.
  intros H. apply trim_fix.
  - destruct s as [|c s]; auto. simpl in H.
    apply andb_true_iff in H. destruct H as [H _].
    now apply negb_true_iff in H.
  - destruct (rev s) as [|c r] eqn:E; auto.
    assert (Hin : In c s) by (apply in_rev; rewrite E; left; reflexivity).
    rewrite forallb_forall in H. specialize (H c Hin).
    now apply negb_true_iff in H.
Qed.

(** ** Searching in strings *)

Lemma isPrefix_spec t s :
  isPrefix t s = true <-> exists post, s = t ++ post.
Proof.
  revert s. induction t as [|x t IH]; intros s; simpl.
  - split; [intros _; exists s; reflexivity | reflexivity].
  - destruct s as [|y s].
    + split; [discriminate | intros [post H]; discriminate].
    + rewrite andb_true_iff, cu_eqb_eq, IH. split.
      * intros [-> [post ->]]. exists post. reflexivity.
      * intros [post H]. inversion H; subst. split; [reflexivity|]. now exists post.
Qed.

Lemma isPrefix_app t post : isPrefix t (t ++ post) = true.
Proof. apply isPrefix_spec. now exists post. Qed.

Lemma occursAt_of_split pre t post : occursAt (pre ++ t ++ post) t (length pre).
Proof.
  unfold occursAt. rewrite skipn_app, skipn_all, Nat.sub_diag. simpl.
  apply isPrefix_app.
Qed.

(** What [lastIndexOf] returns: [-1] when [t] does not occur, and the
    offset of the last occurrence otherwise. *)
Lemma lastIndexOf_from_spec s t : forall i, (0 <= i)%Z ->
  (lastIndexOf_from i s t = (-1)%Z /\
   forall k, k <= length s -> isPrefix t (skipn k s) = false)
  \/
  (exists k, lastIndexOf_from i s t = (i + Z.of_nat k)%Z /\ k <= length s /\
             occursAt s t k /\
             forall j, k < j -> j <= length s -> isPrefix t (skipn j s) = false).
Proof.
  induction s as [|x s IH]; intros i Hi.
  - simpl. destruct (isPrefix t []) eqn:E.
    + right. exists 0. unfold occursAt. simpl.
      repeat split; auto; try lia; intros; simpl in *; lia.
    + left. split; auto. intros k Hk. assert (k = 0) by lia. subst. exact E.
  - cbn [lastIndexOf_from].
    destruct (IH (i + 1)%Z ltac:(lia)) as [[Hr Hno] | [k [Hr [Hk [Hocc Hlast]]]]].
    + rewrite Hr. simpl Z.eqb. cbv iota.
      destruct (isPrefix t (x :: s)) eqn:E.
      * right. exists 0. unfold occursAt. simpl skipn.
        split; [lia|]. split; [simpl; lia|]. split; [exact E|].
        intros j Hj Hj'. destruct j as [|j]; [lia|]. simpl. apply Hno.
        simpl in Hj'. lia.
      * left. split; auto. intros k Hk. destruct k as [|k]; [exact E|].
        simpl. apply Hno. simpl in Hk. lia.
    + rewrite Hr.
      destruct (i + 1 + Z.of_nat k =? -1)%Z eqn:E; [apply Z.eqb_eq in E; lia|].
      right. exists (S k). repeat split.
      * lia.
      * simpl. lia.
      * exact Hocc.
      * intros j Hj Hj'. destruct j as [|j]; [lia|]. simpl. apply Hlast; [lia|].
        simpl in Hj'. lia.
Qed.

Lemma lastIndexOf_occurs s t k :
  occursAt s t k -> k <= length s ->
  exists k', lastIndexOf s t = Z.of_nat k' /\ k' <= length s /\
             occursAt s t k' /\
             forall j, k' < j -> j <= length s -> ~ occursAt s t j.
Proof.
  intros Hocc Hk. unfold lastIndexOf.
  destruct (lastIndexOf_from_spec s t 0%Z ltac:(lia))
    as [[_ Hno] | [k' [Hr [Hk' [Hocc' Hlast]]]]].
  - unfold occursAt in Hocc. rewrite (Hno k Hk) in Hocc. discriminate.
  - exists k'. repeat split; auto.
    intros j Hj Hj' Hc. unfold occursAt in Hc.
    rewrite (Hlast j Hj Hj') in Hc. discriminate.
Qed.

Lemma substringFrom_skipn s a :
  (0 <= a)%Z -> substringFrom s a = skipn (Z.to_nat a) s.
Proof.
  intros Ha. unfold substringFrom, substring, clampIndex, strlen.
  rewrite (Z.max_l a 0) by lia.
  rewrite (Z.max_l (Z.of_nat (length s)) 0) by lia.
  rewrite Z.min_id, Nat2Z.id.
  destruct (Z_le_gt_dec a (Z.of_nat (length s))) as [Hle | Hgt].
  - rewrite Z.min_l by lia.
    rewrite Nat.min_l, Nat.max_r by lia.
    apply firstn_all2. rewrite length_skipn. lia.
  - rewrite Z.min_r by lia. rewrite Nat2Z.id.
    rewrite Nat.min_id, Nat.max_id, Nat.sub_diag. simpl.
    symmetry. apply skipn_all2. lia.
Qed.

(** ** Price matches *)

Lemma takeWhile_dropWhile p s : s = takeWhile p s ++ dropWhile p s.
Proof.
  induction s as [|c s IH]; simpl; auto.
  destruct (p c); simpl; [f_equal; exact IH | reflexivity].
Qed.

Lemma takeWhile_all p s : forallb p (takeWhile p s) = true.
Proof.
  induction s as [|c s IH]; simpl; auto.
  destruct (p c) eqn:E; simpl; auto. rewrite E. exact IH.
Qed.

Lemma matchAllPrices_token s : forall skip t,
  In t (matchAllPrices skip s) -> isPriceToken t.
Proof.
  induction s as [|c s IH]; intros skip t Hin; simpl in Hin; [contradiction|].
  destruct skip as [|k]; [|eauto].
  destruct (cu_eqb c dollar) eqn:Ec; [|eauto].
  destruct (takeWhile isPriceChar s) as [|d run] eqn:Er; [eauto|].
  destruct Hin as [<- | Hin]; [|eauto].
  apply cu_eqb_eq in Ec. subst c.
  exists (d :: run). repeat split; [discriminate|].
  rewrite <- Er. apply takeWhile_all.
Qed.

Lemma sliceLast3_spec {A : Type} (l : list A) :
  3 <= length l ->
  exists pre a b c, l = pre ++ [a; b; c] /\ sliceLast3 l = [a; b; c]
                    /\ length pre = length l - 3.
Proof.
  intros H. unfold sliceLast3.
  assert (Hlen : length (skipn (length l - 3) l) = 3)
    by (rewrite length_skipn; lia).
  destruct (skipn (length l - 3) l) as [|a [|b [|c [|d r]]]] eqn:E;
    simpl in Hlen; try lia.
  exists (firstn (length l - 3) l), a, b, c. repeat split.
  - rewrite <- E. symmetry. apply firstn_skipn.
  - rewrite length_firstn. lia.
Qed.

(** *** Matching and white space

    Normalizing a line only touches white space, which is neither [$]
    nor part of a price: the price matches of the normalized line are
    those of the line itself. *)

Lemma matchAllPrices_skip s : forall k,
  matchAllPrices k s = matchAllPrices 0 (skipn k s).
Proof.
  induction s as [|c s IH]; intros k.
  - destruct k; reflexivity.
  - destruct k as [|k]; [reflexivity|]. simpl. apply IH.
Qed.

Lemma skipn_takeWhile p s :
  skipn (length (takeWhile p s)) s = dropWhile p s.
Proof.
  induction s as [|c s IH]; simpl; auto.
  destruct (p c); simpl; auto.
Qed.

(** The matcher at a position outside a match: either a match starts
    here and the search resumes after it, or the search moves on by one
    code unit. *)
Lemma matchAllPrices_step c s :
  matchAllPrices 0 (c :: s) =
  if cu_eqb c dollar then
    match takeWhile isPriceChar s with
    | [] => matchAllPrices 0 s
    | run => (c :: run) :: matchAllPrices 0 (dropWhile isPriceChar s)
    end
  else matchAllPrices 0 s.
Proof.
  cbn [matchAllPrices]. destruct (cu_eqb c dollar); [|reflexivity].
  destruct (takeWhile isPriceChar s) as [|d run] eqn:E; [reflexivity|].
  rewrite matchAllPrices_skip.
  replace (skipn (length (d :: run)) s) with (dropWhile isPriceChar s);
    [reflexivity|].
  rewrite <- E. symmetry. apply skipn_takeWhile.
Qed.

Lemma ws_not_dollar c : isWhiteSpace c = true -> cu_eqb c dollar = false.
Proof.
  intros H. destruct (cu_eqb c dollar) eqn:E; [|reflexivity].
  apply cu_eqb_eq in E. subst c. discriminate.
Qed.

Lemma ws_not_priceChar c : isWhiteSpace c = true -> isPriceChar c = false.
Proof.
  intros H. destruct (isPriceChar c) eqn:E; [|reflexivity].
  apply isPriceChar_not_ws in E. congruence.
Qed.

Lemma matchAllPrices_ws w : forall k,
  forallb isWhiteSpace w = true -> matchAllPrices k w = [].
Proof.
  induction w as [|c w IH]; intros k H; [reflexivity|].
  simpl in H. apply andb_true_iff in H. destruct H as [Hc Hw].
  simpl. destruct k; [|auto].
  rewrite (ws_not_dollar c Hc). auto.
Qed.

Lemma takeWhile_app_ws s w :
  forallb isWhiteSpace w = true ->
  takeWhile isPriceChar (s ++ w) = takeWhile isPriceChar s.
Proof.
  intros Hw. induction s as [|c s IH]; simpl.
  - destruct w as [|d w]; [reflexivity|]. simpl in *.
    apply andb_true_iff in Hw. destruct Hw as [Hd _].
    rewrite (ws_not_priceChar d Hd). reflexivity.
  - destruct (isPriceChar c); [f_equal; exact IH | reflexivity].
Qed.

Lemma matchAllPrices_app_ws s w : forall k,
  forallb isWhiteSpace w = true ->
  matchAllPrices k (s ++ w) = matchAllPrices k s.
Proof.
  induction s as [|c s IH]; intros k Hw.
  - simpl. rewrite matchAllPrices_ws by exact Hw. destruct k; reflexivity.
  - simpl. destruct k as [|k]; [|auto].
    destruct (cu_eqb c dollar); [|auto].
    rewrite takeWhile_app_ws by exact Hw.
    destruct (takeWhile isPriceChar s); auto.
    f_equal. auto.
Qed.

Lemma matchAllPrices_dropWhile_ws s :
  matchAllPrices 0 (dropWhile isWhiteSpace s) = matchAllPrices 0 s.
Proof.
  induction s as [|c s IH]; [reflexivity|].
  simpl dropWhile. destruct (isWhiteSpace c) eqn:E; [|reflexivity].
  rewrite IH, (matchAllPrices_step c s), (ws_not_dollar c E). reflexivity.
Qed.

Lemma matchAllPrices_trim s :
  matchAllPrices 0 (trim s) = matchAllPrices 0 s.
Proof.
  rewrite <- (matchAllPrices_dropWhile_ws s).
  set (a := dropWhile isWhiteSpace s).
  assert (Ha : a = trim s ++ rev (takeWhile isWhiteSpace (rev a))).
  { unfold trim. fold a. rewrite <- rev_app_distr, <- takeWhile_dropWhile.
    symmetry. apply rev_involutive. }
  transitivity
    (matchAllPrices 0 (trim s ++ rev (takeWhile isWhiteSpace (rev a))));
    [|rewrite <- Ha; reflexivity].
  symmetry. apply matchAllPrices_app_ws.
  rewrite forallb_forall. intros c Hc. apply in_rev in Hc.
  pose proof (takeWhile_all isWhiteSpace (rev a)) as Hall.
  rewrite forallb_forall in Hall. auto.
Qed.

Lemma takeWhile_collapseWs s :
  takeWhile isPriceChar (collapseWs_go false s) = takeWhile isPriceChar s.
Proof.
  induction s as [|c s IH]; [reflexivity|].
  simpl. destruct (isWhiteSpace c) eqn:E.
  - rewrite (ws_not_priceChar c E). reflexivity.
  - simpl. destruct (isPriceChar c); [f_equal; exact IH | reflexivity].
Qed.

Lemma dropWhile_collapseWs s :
  dropWhile isPriceChar (collapseWs_go false s)
  = collapseWs_go false (dropWhile isPriceChar s).
Proof.
  induction s as [|c s IH]; [reflexivity|].
  simpl. destruct (isWhiteSpace c) eqn:E.
  - rewrite (ws_not_priceChar c E). simpl. rewrite E. reflexivity.
  - simpl. destruct (isPriceChar c); [exact IH|]. simpl. rewrite E. reflexivity.
Qed.

Lemma length_dropWhile p s : length (dropWhile p s) <= length s.
Proof.
  induction s as [|c s IH]; simpl; auto.
  destruct (p c); simpl; lia.
Qed.

Lemma matchAllPrices_collapseWs_go n : forall s inws,
  length s <= n ->
  matchAllPrices 0 (collapseWs_go inws s) = matchAllPrices 0 s.
Proof.
  induction n as [|n IH]; intros s inws Hn.
  - destruct s; [reflexivity | simpl in Hn; lia].
  - destruct s as [|c s]; [reflexivity|]. simpl in Hn.
    simpl collapseWs_go. destruct (isWhiteSpace c) eqn:E.
    + rewrite (matchAllPrices_step c s), (ws_not_dollar c E).
      destruct inws.
      * apply IH. lia.
      * rewrite matchAllPrices_step. simpl. apply IH. lia.
    + rewrite !matchAllPrices_step.
      destruct (cu_eqb c dollar); [|apply IH; lia].
      rewrite takeWhile_collapseWs.
      destruct (takeWhile isPriceChar s); [apply IH; lia|].
      f_equal. rewrite dropWhile_collapseWs. apply IH.
      pose proof (length_dropWhile isPriceChar s). lia.
Qed.

Lemma matchAllPrices_normalize line :
  matchAllPrices 0 (Prices.normalize line) = matchAllPrices 0 line.
Proof.
  unfold Prices.normalize, collapseWs.
  rewrite matchAllPrices_trim.
  apply (matchAllPrices_collapseWs_go (length line)). lia.
Qed.

(** *** The last valid token *)

Lemma isValidPrice_app t x :
  Prices.isValidPrice t = true -> Prices.isValidPrice (t ++ x) = true.
Proof.
  unfold Prices.isValidPrice. rewrite filter_app, length_app.
  intros H. apply Nat.leb_le in H. apply Nat.leb_le. lia.
Qed.

Lemma takeWhile_app_all p a b :
  forallb p a = true -> takeWhile p (a ++ b) = a ++ takeWhile p b.
Proof.
  induction a as [|c a IH]; simpl; [reflexivity|].
  intros H. apply andb_true_iff in H. destruct H as [Hc Ha].
  rewrite Hc. f_equal. auto.
Qed.

(** A token cannot start inside a run of digits, commas and periods. *)
Lemma occursAt_after_run run rest body : forall j,
  forallb isPriceChar run = true ->
  occursAt (run ++ rest) (dollar :: body) j ->
  length run <= j /\ occursAt rest (dollar :: body) (j - length run).
Proof.
  induction run as [|r run IH]; intros j Hrun Hocc.
  - simpl. rewrite Nat.sub_0_r. split; [lia | exact Hocc].
  - simpl in Hrun. apply andb_true_iff in Hrun. destruct Hrun as [Hr Hrun].
    destruct j as [|j].
    + unfold occursAt in Hocc. cbn [skipn app isPrefix] in Hocc.
      apply andb_true_iff in Hocc. destruct Hocc as [Hd _].
      apply cu_eqb_eq in Hd. subst r. discriminate.
    + unfold occursAt in Hocc. cbn [skipn app isPrefix] in Hocc.
      destruct (IH j Hrun Hocc) as [Hj Ho]. simpl. split; [lia | exact Ho].
Qed.

(** Wherever a token-shaped string occurs, the matcher reports a match
    that starts with it. *)
Lemma occurrence_is_matched n : forall s body j,
  length s <= n ->
  body <> [] -> forallb isPriceChar body = true ->
  occursAt s (dollar :: body) j ->
  exists x, In ((dollar :: body) ++ x) (matchAllPrices 0 s).
Proof.
  induction n as [|n IH]; intros s body j Hn Hne Hbody Hocc.
  - destruct s; [|simpl in Hn; lia].
    unfold occursAt in Hocc. destruct j; discriminate.
  - destruct s as [|c s].
    { unfold occursAt in Hocc. destruct j; discriminate. }
    simpl in Hn. rewrite matchAllPrices_step.
    destruct j as [|j].
    + unfold occursAt in Hocc. cbn [skipn app isPrefix] in Hocc.
      apply andb_true_iff in Hocc. destruct Hocc as [Hc Hpre].
      apply cu_eqb_eq in Hc. subst c.
      replace (cu_eqb dollar dollar) with true by reflexivity.
      apply isPrefix_spec in Hpre. destruct Hpre as [post ->].
      rewrite takeWhile_app_all by exact Hbody.
      destruct body as [|b body]; [congruence|].
      exists (takeWhile isPriceChar post). left. reflexivity.
    + assert (Hs : occursAt s (dollar :: body) j) by exact Hocc.
      assert (Hrec : exists x, In ((dollar :: body) ++ x) (matchAllPrices 0 s))
        by (apply (IH s body j); auto; lia).
      destruct (cu_eqb c dollar); [|exact Hrec].
      destruct (takeWhile isPriceChar s) as [|d run] eqn:E; [exact Hrec|].
      rewrite (takeWhile_dropWhile isPriceChar s), E in Hs.
      apply occursAt_after_run in Hs;
        [|rewrite <- E; apply takeWhile_all].
      destruct Hs as [_ Hs].
      destruct (IH (dropWhile isPriceChar s) body _
                   ltac:(pose proof (length_dropWhile isPriceChar s); lia)
                   Hne Hbody Hs) as [x Hx].
      exists x. right. exact Hx.
Qed.

(** The last valid token splits the text: nothing valid is matched
    after it. *)
Lemma last_valid_token_split n : forall s earlier tok,
  length s <= n ->
  currencyTokens s = earlier ++ [tok] ->
  exists before after,
    s = before ++ tok ++ after /\ currencyTokens after = [].
Proof.
  unfold currencyTokens.
  induction n as [|n IH]; intros s earlier tok Hn H.
  - destruct s; [|simpl in Hn; lia]. destruct earlier; discriminate.
  - destruct s as [|c s]; [destruct earlier; discriminate|].
    simpl in Hn. rewrite matchAllPrices_step in H.
    assert (Hrec : filter Prices.isValidPrice (matchAllPrices 0 s)
                   = earlier ++ [tok] ->
                   exists before after,
                     c :: s = before ++ tok ++ after /\
                     filter Prices.isValidPrice (matchAllPrices 0 after) = []).
    { intros H'. destruct (IH s earlier tok ltac:(lia) H')
        as [before [after [-> Ha]]].
      exists (c :: before), after. split; [reflexivity | exact Ha]. }
    destruct (cu_eqb c dollar); [|auto].
    destruct (takeWhile isPriceChar s) as [|d run] eqn:E; [auto|].
    assert (Hs : c :: s = (c :: d :: run) ++ dropWhile isPriceChar s).
    { change (c :: s = c :: (d :: run) ++ dropWhile isPriceChar s).
      f_equal. rewrite <- E. apply takeWhile_dropWhile. }
    set (rest := dropWhile isPriceChar s) in *.
    assert (Hlen : length rest <= n).
    { pose proof (length_dropWhile isPriceChar s). subst rest. lia. }
    cbn [filter] in H.
    destruct (filter Prices.isValidPrice (matchAllPrices 0 rest))
      as [|y ys] eqn:Erest.
    + destruct (Prices.isValidPrice (c :: d :: run)).
      * destruct earlier as [|e earlier].
        -- inversion H; subst tok. exists [], rest. split; [exact Hs | exact Erest].
        -- inversion H. destruct earlier; discriminate.
      * destruct earlier; discriminate.
    + destruct (exists_last (l := y :: ys) ltac:(discriminate))
        as [ys' [z Hz]].
      assert (Hzt : z = tok /\
                    filter Prices.isValidPrice (matchAllPrices 0 rest)
                    = ys' ++ [tok]).
      { rewrite Hz in H.
        destruct (Prices.isValidPrice (c :: d :: run)).
        - rewrite app_comm_cons in H. apply app_inj_tail in H.
          destruct H as [_ ->]. rewrite Erest, Hz. auto.
        - apply app_inj_tail in H. destruct H as [_ ->].
          rewrite Erest, Hz. auto. }
      destruct Hzt as [_ Hrest].
      destruct (IH rest ys' tok Hlen Hrest) as [before [after [Hb Ha]]].
      exists ((c :: d :: run) ++ before), after. split; [|exact Ha].
      rewrite Hs, Hb, <- app_assoc. reflexivity.
Qed.

Lemma currencyTokens_token s t : In t (currencyTokens s) -> isPriceToken t.
Proof.
  unfold currencyTokens. intros H. apply filter_In in H.
  eapply matchAllPrices_token. apply H.
Qed.

(** [lastIndexOf] of the last valid token finds that token's match:
    the text after it holds no valid token. *)
Lemma lastIndexOf_last_valid_token s earlier tok :
  currencyTokens s = earlier ++ [tok] ->
  exists before after,
    s = before ++ tok ++ after /\ currencyTokens after = []
    /\ lastIndexOf s tok = Z.of_nat (length before).
Proof.
  intros H.
  destruct (last_valid_token_split (length s) s earlier tok (le_n _) H)
    as [before [after [Hs Hafter]]].
  exists before, after. split; [exact Hs|]. split; [exact Hafter|].
  assert (Hin : In tok (currencyTokens s)).
  { rewrite H. apply in_or_app. right. left. reflexivity. }
  assert (Hvalid : Prices.isValidPrice tok = true).
  { unfold currencyTokens in Hin. apply filter_In in Hin. apply Hin. }
  destruct (currencyTokens_token s tok Hin) as [body [-> [Hne Hbody]]].
  assert (Hocc : occursAt s (dollar :: body) (length before)).
  { rewrite Hs. apply occursAt_of_split. }
  assert (Hle : length before <= length s).
  { rewrite Hs, length_app. lia. }
  destruct (lastIndexOf_occurs s _ _ Hocc Hle) as [k [Hk [Hkl [Hok Hlast]]]].
  rewrite Hk. f_equal.
  destruct (Nat.lt_trichotomy k (length before)) as [Hlt | [Heq | Hgt]];
    [exfalso; apply (Hlast (length before)); assumption | exact Heq |].
  exfalso. unfold occursAt in Hok. rewrite Hs in Hok.
  rewrite skipn_app in Hok.
  rewrite skipn_all2 in Hok by lia. simpl app in Hok.
  remember (k - length before) as i eqn:Ei.
  destruct i as [|i]; [lia|].
  cbn [app skipn] in Hok.
  destruct (occursAt_after_run body after body i Hbody Hok) as [_ Hpost].
  destruct (occurrence_is_matched (length after) after body _ (le_n _)
              Hne Hbody Hpost) as [x Hx].
  assert (Hbad : In ((dollar :: body) ++ x) (currencyTokens after)).
  { unfold currencyTokens. apply filter_In. split; [exact Hx|].
    apply isValidPrice_app, Hvalid. }
  rewrite Hafter in Hbad. contradiction.
Qed.

(** ** The row parser *)

Lemma validPriceTokens_matched line t :
  In t (Prices.validPriceTokens line) ->
  In t (matchAllPrices 0 (Prices.normalize line)).
Proof.
  unfold Prices.validPriceTokens, Prices.validPricesOf, matchPrices.
  destruct (matchAllPrices 0 (Prices.normalize line)) as [|m ms];
    [contradiction|].
  unfold option_map. intros Hin.
  apply filter_In in Hin. apply Hin.
Qed.

Lemma validPriceTokens_normalized line :
  Prices.validPriceTokens line = currencyTokens (Prices.normalize line).
Proof.
  unfold Prices.validPriceTokens, Prices.validPricesOf, matchPrices,
    currencyTokens.
  destruct (matchAllPrices 0 (Prices.normalize line)); reflexivity.
Qed.

(** The tokens the parser works with are the valid currency tokens of the
    line as given. *)
Lemma validPriceTokens_of_line line :
  Prices.validPriceTokens line = currencyTokens line.
Proof.
  rewrite validPriceTokens_normalized. unfold currencyTokens.
  rewrite matchAllPrices_normalize. reflexivity.
Qed.

Lemma validPriceTokens_token line t :
  In t (Prices.validPriceTokens line) -> isPriceToken t.
Proof.
  intros Hin. eapply matchAllPrices_token.
  apply validPriceTokens_matched, Hin.
Qed.

(** [cleanPrice] gives back a price token without its [$]. *)
Lemma cleanPrice_token body :
  forallb isPriceChar body = true ->
  Prices.cleanPrice (dollar :: body) = body.
Proof.
  intros H. unfold Prices.cleanPrice. simpl.
  apply trim_no_ws. rewrite forallb_forall in *.
  intros c Hc. apply negb_true_iff, isPriceChar_not_ws, H, Hc.
Qed.

(** Everything a successful parse fixes: the last three valid tokens
    and the fields computed from them. *)
Lemma parseTableRow_success line r :
  Prices.parseTableRow line = Some r ->
  exists pre p0 p1 p2 parts,
    Prices.validPriceTokens line = pre ++ [p0; p1; p2] /\
    parts = splitWs (trim (substring (Prices.normalize line) 0
                             (indexOf (Prices.normalize line) p0))) /\
    4 <= length parts /\
    isAllDigits (nth (length parts - 2) parts []) = true /\
    quantity r = trim (nth (length parts - 2) parts []) /\
    extraQualityPrice r = dollar :: Prices.cleanPrice p0 /\
    firstQualityPrice r = dollar :: Prices.cleanPrice p1 /\
    unitPrice r = dollar :: Prices.cleanPrice p2 /\
    previousDayVariation r =
      (let after := substringFrom (Prices.normalize line)
                      (lastIndexOf (Prices.normalize line) p2 + strlen p2) in
       if isEmpty (trim (trim after)) then str "N/A" else trim (trim after)).
Proof.
  unfold Prices.parseTableRow, Prices.validPriceTokens.
  destruct (Prices.validPricesOf (Prices.normalize line)) as [valid|];
    [|discriminate].
  destruct (length valid <? 3) eqn:Elen; [discriminate|].
  apply Nat.ltb_ge in Elen.
  destruct (sliceLast3_spec valid Elen) as [pre [p0 [p1 [p2 [Hv [Hs _]]]]]].
  rewrite Hs. cbn [nth].
  destruct (indexOf (Prices.normalize line) p0 =? -1)%Z; [discriminate|].
  set (parts := splitWs _).
  destruct (length parts <? 4) eqn:Eparts; [discriminate|].
  apply Nat.ltb_ge in Eparts.
  destruct (isEmpty _ || isEmpty _ || negb (isAllDigits _) || isEmpty _) eqn:Eg;
    [discriminate|].
  intros H. inversion H; subst r; clear H. cbn.
  exists pre, p0, p1, p2, parts.
  repeat rewrite orb_false_iff in Eg.
  destruct Eg as [[[_ _] Hq] _]. apply negb_false_iff in Hq.
  repeat split; auto.
Qed.

(** C2: a line with fewer than three valid currency tokens (matches of
    [$] + digits, commas and periods that keep at least four digits once
    the punctuation is removed) is not a row: the parser returns
    "no match" and no record. *)
Theorem parseTableRow_too_few_prices line :
  length (currencyTokens line) < 3 ->
  Prices.parseTableRow line = None.
Proof.
  rewrite <- validPriceTokens_of_line.
  unfold Prices.validPriceTokens, Prices.parseTableRow.
  destruct (Prices.validPricesOf (Prices.normalize line)) as [valid|];
    [|reflexivity].
  intros H. apply Nat.ltb_lt in H. rewrite H. reflexivity.
Qed.

Lemma parseTableRow_too_few_prices_witness :
  length (currencyTokens (str "PAPA BULTO 50 KILO $35,000 $36,000 $370")) < 3
  /\ Prices.parseTableRow (str "PAPA BULTO 50 KILO $35,000 $36,000 $370") = None.
Proof.
  split.
  - vm_compute. lia.
  - apply parseTableRow_too_few_prices. vm_compute. lia.
Defined.

(** C1: when a line with more than three valid price tokens parses, the
    three price fields are the last three valid tokens in left-to-right
    order (extra, first, unit), each written as [$] followed by the
    token's own digits and separators. *)
Theorem parseTableRow_last_three_prices line r :
  Prices.parseTableRow line = Some r ->
  3 < length (currencyTokens line) ->
  exists earlier b0 b1 b2,
    earlier <> [] /\
    currencyTokens line
      = earlier ++ [dollar :: b0; dollar :: b1; dollar :: b2] /\
    forallb isPriceChar b0 = true /\
    forallb isPriceChar b1 = true /\
    forallb isPriceChar b2 = true /\
    extraQualityPrice r = dollar :: b0 /\
    firstQualityPrice r = dollar :: b1 /\
    unitPrice r = dollar :: b2.
Proof.
  intros Hparse Hlen. rewrite <- validPriceTokens_of_line in *.
  destruct (parseTableRow_success line r Hparse)
    as [pre [p0 [p1 [p2 [parts [Hv [_ [_ [_ [_ [He [Hf [Hu _]]]]]]]]]]]]].
  assert (Htok : forall t, In t [p0; p1; p2] -> isPriceToken t).
  { intros t Ht. apply (validPriceTokens_token line). rewrite Hv.
    apply in_or_app. right. exact Ht. }
  destruct (Htok p0 ltac:(simpl; auto)) as [b0 [-> [_ H0]]].
  destruct (Htok p1 ltac:(simpl; auto)) as [b1 [-> [_ H1]]].
  destruct (Htok p2 ltac:(simpl; auto)) as [b2 [-> [_ H2]]].
  rewrite cleanPrice_token in He, Hf, Hu by assumption.
  exists pre, b0, b1, b2. repeat split; auto.
  intros ->. rewrite Hv in Hlen. simpl in Hlen. lia.
Qed.

Lemma parseTableRow_last_three_prices_witness :
  exists r,
    Prices.parseTableRow
      (str "PAPA $1000 BULTO 50 KILO $35,000 $36,000 $37,000 Estable") = Some r
    /\ extraQualityPrice r = str "$35,000"
    /\ firstQualityPrice r = str "$36,000"
    /\ unitPrice r = str "$37,000"
    /\ exists earlier b0 b1 b2,
         earlier <> [] /\
         currencyTokens
           (str "PAPA $1000 BULTO 50 KILO $35,000 $36,000 $37,000 Estable")
           = earlier ++ [dollar :: b0; dollar :: b1; dollar :: b2] /\
         forallb isPriceChar b0 = true /\
         forallb isPriceChar b1 = true /\
         forallb isPriceChar b2 = true /\
         extraQualityPrice r = dollar :: b0 /\
         firstQualityPrice r = dollar :: b1 /\
         unitPrice r = dollar :: b2.
Proof.
  eexists. split; [vm_compute; reflexivity|].
  split; [reflexivity|]. split; [reflexivity|]. split; [reflexivity|].
  apply parseTableRow_last_three_prices
    with (line := str "PAPA $1000 BULTO 50 KILO $35,000 $36,000 $37,000 Estable").
  - vm_compute. reflexivity.
  - vm_compute. lia.
Defined.

Lemma isAllDigits_spec q :
  isAllDigits q = true -> q <> [] /\ forallb isDigit q = true.
Proof.
  destruct q as [|c q]; [discriminate|].
  unfold isAllDigits. intros H. split; [discriminate | exact H].
Qed.

Lemma trim_digits q : forallb isDigit q = true -> trim q = q.
Proof.
  intros H. apply trim_no_ws. rewrite forallb_forall in *.
  intros c Hc. apply negb_true_iff, isDigit_not_ws, H, Hc.
Qed.

(** C3: the record of a successful parse has an all-digit quantity
    ([^\d+$]), three price fields that begin with [$], and as
    [previousDayVariation] the trimmed text that follows the last valid
    price token of the normalized line (no valid token is left in that
    text), or ["N/A"] when that text is empty. *)
Theorem parseTableRow_record_shape line r :
  Prices.parseTableRow line = Some r ->
  isAllDigits (quantity r) = true /\
  (exists b0 b1 b2,
      extraQualityPrice r = dollar :: b0 /\
      firstQualityPrice r = dollar :: b1 /\
      unitPrice r = dollar :: b2) /\
  exists earlier token before after,
    currencyTokens line = earlier ++ [token] /\
    Prices.normalize line = before ++ token ++ after /\
    currencyTokens after = [] /\
    previousDayVariation r
      = if isEmpty (trim after) then str "N/A" else trim after.
Proof.
  intros Hparse.
  destruct (parseTableRow_success line r Hparse)
    as [pre [p0 [p1 [p2 [parts [Hv [_ [_ [Hq [Hqr [He [Hf [Hu Hvar]]]]]]]]]]]]].
  split.
  { rewrite Hqr. destruct (isAllDigits_spec _ Hq) as [_ Hd].
    rewrite trim_digits by exact Hd. exact Hq. }
  split.
  { exists (Prices.cleanPrice p0), (Prices.cleanPrice p1), (Prices.cleanPrice p2).
    auto. }
  assert (Hlast : currencyTokens (Prices.normalize line)
                  = (pre ++ [p0; p1]) ++ [p2]).
  { rewrite <- validPriceTokens_normalized, Hv, <- app_assoc. reflexivity. }
  destruct (lastIndexOf_last_valid_token _ _ _ Hlast)
    as [before [after [Hs [Hafter Hidx]]]].
  exists (pre ++ [p0; p1]), p2, before, after.
  split; [rewrite <- validPriceTokens_of_line, Hv, <- app_assoc; reflexivity|].
  split; [exact Hs|]. split; [exact Hafter|].
  rewrite Hvar. cbv zeta. rewrite Hidx. unfold strlen.
  rewrite substringFrom_skipn by lia.
  rewrite trim_idempotent.
  replace (Z.to_nat (Z.of_nat (length before) + Z.of_nat (length p2)))
    with (length before + length p2) by lia.
  replace (skipn (length before + length p2) (Prices.normalize line))
    with after; [reflexivity|].
  rewrite Hs, app_assoc, skipn_app, <- length_app.
  rewrite skipn_all, Nat.sub_diag. reflexivity.
Qed.

Lemma parseTableRow_record_shape_witness :
  exists r,
    Prices.parseTableRow (str "TOMATE KILO 2 KILO $3,000 $3,100 $3,200") = Some r
    /\ previousDayVariation r = str "N/A"
    /\ isAllDigits (quantity r) = true.
Proof.
  eexists. split; [vm_compute; reflexivity|].
  split; [reflexivity|].
  apply (parseTableRow_record_shape (str "TOMATE KILO 2 KILO $3,000 $3,100 $3,200")).
  vm_compute. reflexivity.
Defined.

(** ** The table scanner *)

Section ScannerFacts.
Variable lower : jsstring -> jsstring.

Local Abbreviation scanLine := (Prices.scanLine lower).
Local Abbreviation scanLines := (Prices.scanLines lower).
Local Abbreviation hasHeaderKeyword := (Prices.hasHeaderKeyword lower).
Local Abbreviation foundRequiredWords := (Prices.foundRequiredWords lower).

Lemma scanLines_app st xs ys :
  scanLines st (xs ++ ys) = scanLines (scanLines st xs) ys.
Proof. unfold Prices.scanLines. apply fold_left_app. Qed.

Lemma scanLines_cons st x xs :
  scanLines st (x :: xs) = scanLines (scanLine st x) xs.
Proof. reflexivity. Qed.

(** While the header is not found, a line without a header keyword
    leaves the state alone. *)
Lemma scanLine_searching_skip st line :
  headerFound st = false ->
  hasHeaderKeyword line = false ->
  scanLine st line = st.
Proof.
  intros Hf Hk. unfold Prices.scanLine, Prices.scanRow.
  rewrite Hk, Hf. simpl. reflexivity.
Qed.

(** While the header is not found, a keyword line below the quorum is
    appended to the buffer and nothing else changes. *)
Lemma scanLine_searching_collect st line :
  headerFound st = false ->
  hasHeaderKeyword line = true ->
  foundRequiredWords (headerLines st ++ [line]) < 3 ->
  scanLine st line =
    {| inTable := inTable st; headerFound := false;
       headerLines := headerLines st ++ [line]; productos := productos st |}.
Proof.
  intros Hf Hk Hq. unfold Prices.scanLine, Prices.scanRow.
  rewrite Hk, Hf. cbn [andb negb].
  apply Nat.leb_gt in Hq. rewrite Hq. cbn [headerFound inTable andb].
  reflexivity.
Qed.

(** The keyword line that reaches the quorum opens the table and is
    not handed to the row parser. *)
Lemma scanLine_searching_quorum st line :
  headerFound st = false ->
  hasHeaderKeyword line = true ->
  3 <= foundRequiredWords (headerLines st ++ [line]) ->
  scanLine st line =
    {| inTable := true; headerFound := true;
       headerLines := headerLines st ++ [line]; productos := productos st |}.
Proof.
  intros Hf Hk Hq. unfold Prices.scanLine.
  rewrite Hk, Hf. cbn [andb negb].
  apply Nat.leb_le in Hq. rewrite Hq. reflexivity.
Qed.

Lemma scanRow_headerFound st line :
  headerFound (Prices.scanRow lower st line) = headerFound st.
Proof.
  unfold Prices.scanRow.
  destruct (headerFound st && inTable st); [|reflexivity].
  destruct (hasHeaderKeyword line && _); [reflexivity|].
  destruct (Prices.parseTableRow line); [reflexivity|].
  destruct (_ || _); reflexivity.
Qed.

Lemma scanLine_headerFound_mono st line :
  headerFound st = true -> headerFound (scanLine st line) = true.
Proof.
  intros Hf. unfold Prices.scanLine. rewrite Hf, andb_false_r. simpl.
  destruct (negb (inTable st)); rewrite scanRow_headerFound;
    [reflexivity | exact Hf].
Qed.

Lemma scanLines_headerFound_mono lines : forall st,
  headerFound st = true -> headerFound (scanLines st lines) = true.
Proof.
  induction lines as [|l lines IH]; intros st Hf; [exact Hf|].
  rewrite scanLines_cons. apply IH, scanLine_headerFound_mono, Hf.
Qed.

(** Before the quorum the buffer holds every keyword line seen so far,
    whatever lies between them, and no record has been produced. *)
Lemma scanLines_searching lines : forall st,
  headerFound (scanLines st lines) = false ->
  scanLines st lines =
    {| inTable := inTable st; headerFound := false;
       headerLines := headerLines st ++ filter hasHeaderKeyword lines;
       productos := productos st |}.
Proof.
  induction lines as [|l lines IH]; intros st Hend.
  - simpl in *. rewrite app_nil_r. destruct st; simpl in *. now subst.
  - rewrite scanLines_cons in *.
    assert (Hst : headerFound st = false).
    { destruct (headerFound st) eqn:E; auto.
      rewrite scanLines_headerFound_mono in Hend; auto.
      apply scanLine_headerFound_mono, E. }
    assert (Hnext : headerFound (scanLine st l) = false).
    { destruct (headerFound (scanLine st l)) eqn:E; auto.
      rewrite scanLines_headerFound_mono in Hend; auto. }
    rewrite (IH _ Hend). simpl filter.
    destruct (hasHeaderKeyword l) eqn:Hk.
    + destruct (Nat.lt_ge_cases (foundRequiredWords (headerLines st ++ [l])) 3)
        as [Hq | Hq].
      * rewrite (scanLine_searching_collect st l Hst Hk Hq). simpl.
        rewrite <- app_assoc. reflexivity.
      * rewrite (scanLine_searching_quorum st l Hst Hk Hq) in Hnext.
        discriminate.
    + rewrite (scanLine_searching_skip st l Hst Hk). reflexivity.
Qed.

(** C4: the header is found as soon as the keyword lines collected so
    far, joined and lower-cased, contain three of the four required
    words, however many lines they are spread over (three separate
    lines included); the line that completes the quorum opens the table
    and no record is produced from it. *)
Theorem header_quorum_across_lines earlier line :
  headerFound (scanLines initialScan earlier) = false ->
  hasHeaderKeyword line = true ->
  3 <= foundRequiredWords (filter hasHeaderKeyword earlier ++ [line]) ->
  scanLines initialScan (earlier ++ [line]) =
    {| inTable := true; headerFound := true;
       headerLines := filter hasHeaderKeyword earlier ++ [line];
       productos := [] |}.
Proof.
  intros Hsearch Hk Hq.
  rewrite scanLines_app, (scanLines_searching earlier initialScan Hsearch).
  simpl scanLines. simpl headerLines.
  rewrite scanLine_searching_quorum; auto.
Qed.

(** Once the table is closed it stays closed: later lines only empty
    the header buffer. *)
Lemma scanLine_closed st line :
  headerFound st = true -> inTable st = false ->
  scanLine st line =
    {| inTable := false; headerFound := true;
       headerLines := []; productos := productos st |}.
Proof.
  intros Hf Ht. unfold Prices.scanLine, Prices.scanRow.
  rewrite Hf, Ht, andb_false_r. simpl. reflexivity.
Qed.

Lemma scanLines_closed lines : forall st,
  headerFound st = true -> inTable st = false ->
  productos (scanLines st lines) = productos st
  /\ inTable (scanLines st lines) = false.
Proof.
  induction lines as [|l lines IH]; intros st Hf Ht; [auto|].
  rewrite scanLines_cons, (scanLine_closed st l Hf Ht).
  apply (IH {| inTable := false; headerFound := true;
               headerLines := []; productos := productos st |});
    reflexivity.
Qed.

(** In the table, a line that is not skipped as a repeated header,
    fails to parse and matches an end marker closes the table. *)
Lemma scanLine_end_marker st line :
  headerFound st = true -> inTable st = true ->
  hasHeaderKeyword line = false \/ productos st = [] ->
  Prices.parseTableRow line = None ->
  Prices.isNewSection line = true ->
  scanLine st line =
    {| inTable := false; headerFound := true;
       headerLines := headerLines st; productos := productos st |}.
Proof.
  intros Hf Ht Hskip Hp Hs. unfold Prices.scanLine, Prices.scanRow.
  rewrite Hf, Ht, andb_false_r. simpl.
  assert (Hg : hasHeaderKeyword line && (0 <? length (productos st)) = false).
  { destruct Hskip as [-> | ->]; [reflexivity | apply andb_false_r]. }
  rewrite Hg, Hp, Hs, orb_true_r. reflexivity.
Qed.
End ScannerFacts.

Lemma header_quorum_across_lines_witness :
  Prices.scanLines toLowerCaseLatin1 initialScan
    ([lineNombre; linePresentacion] ++ [lineCantidad]) =
  {| inTable := true; headerFound := true;
     headerLines := [lineNombre; linePresentacion; lineCantidad];
     productos := [] |}.
Proof.
  apply (header_quorum_across_lines toLowerCaseLatin1
           [lineNombre; linePresentacion] lineCantidad).
  - vm_compute. reflexivity.
  - vm_compute. reflexivity.
  - vm_compute. lia.
Defined.

(** The end-to-end example: a header block followed by one row gives
    exactly that row's record. *)
Example extractPrices_header_then_row :
  Prices.extractPrices toLowerCaseLatin1 (unlines [lineHeader; rowValenton])
  = [recordValenton].
Proof. vm_compute. reflexivity. Qed.

(** C5 (evaluation): the header buffer is not emptied by a line without
    header keywords met before the quorum.  The keyword lines below are
    separated by plain lines, and still the third one completes the quorum
    and the row after it is parsed. *)
Theorem header_buffer_survives_plain_lines :
  headerLines
    (Prices.scanLines toLowerCaseLatin1 initialScan [lineNombre; linePlain])
  = [lineNombre]
  /\ Prices.extractPrices toLowerCaseLatin1
       (unlines [lineNombre; linePlain; linePresentacion; linePlain;
                 lineCantidad; rowValenton])
     = [recordValenton].
Proof. split; vm_compute; reflexivity. Qed.

Section ClosingFacts.
Variable lower : jsstring -> jsstring.

Local Abbreviation scanLine := (Prices.scanLine lower).
Local Abbreviation scanLines := (Prices.scanLines lower).

(** The only way out of the table: the row parser fails on the line and
    the line is empty or an end marker. *)
Lemma scanLine_leaves_table st line :
  inTable st = true ->
  inTable (scanLine st line) = false ->
  Prices.parseTableRow line = None
  /\ (length line =? 0) || Prices.isNewSection line = true.
Proof.
  intros Ht Hout. unfold Prices.scanLine, Prices.scanRow in Hout.
  destruct (headerFound st) eqn:Hf; rewrite Ht in Hout;
    cbn [andb negb headerFound inTable] in Hout.
  - rewrite andb_false_r in Hout.
    destruct (Prices.hasHeaderKeyword lower line && _);
      [congruence|].
    destruct (Prices.parseTableRow line);
      [cbn [inTable] in Hout; congruence|].
    destruct (_ || _); [auto | congruence].
  - rewrite andb_true_r in Hout.
    destruct (Prices.hasHeaderKeyword lower line).
    + destruct (3 <=? _); cbn [andb negb headerFound inTable] in Hout;
        congruence.
    + congruence.
Qed.

Lemma splitLines_nonempty text line :
  In line (splitLines text) -> (length line =? 0) = false.
Proof.
  unfold splitLines. intros H. apply filter_In in H. destruct H as [_ H].
  apply Nat.ltb_lt in H. apply Nat.eqb_neq. lia.
Qed.

(** C10: every line the scanner examines is non-empty, so the
    empty-line half of the closing test never holds: whenever a line of
    the text takes the scanner out of the table, that line matches an
    end-of-section marker. *)
Theorem table_closes_only_on_end_marker text pre line rest :
  splitLines text = pre ++ line :: rest ->
  (length line =? 0) = false
  /\ (inTable (scanLines initialScan pre) = true ->
      inTable (scanLines initialScan (pre ++ [line])) = false ->
      Prices.isNewSection line = true).
Proof.
  intros Hsplit.
  assert (Hne : (length line =? 0) = false).
  { apply (splitLines_nonempty text). rewrite Hsplit.
    apply in_or_app. right. left. reflexivity. }
  split; [exact Hne|].
  intros Hin Hout. rewrite scanLines_app in Hout.
  destruct (scanLine_leaves_table _ _ Hin Hout) as [_ H].
  rewrite Hne in H. exact H.
Qed.

(** C6 (amended): in the table, a line that is not skipped as a repeated
    header (it has no header keyword, or no record has been produced
    yet), fails to parse and matches an end marker closes the table, and
    no later line of the text adds a record. *)
Theorem end_marker_closes_table text pre line rest :
  splitLines text = pre ++ line :: rest ->
  headerFound (scanLines initialScan pre) = true ->
  inTable (scanLines initialScan pre) = true ->
  Prices.hasHeaderKeyword lower line = false
    \/ productos (scanLines initialScan pre) = [] ->
  Prices.parseTableRow line = None ->
  Prices.isNewSection line = true ->
  inTable (scanLines initialScan (pre ++ [line])) = false
  /\ (forall seen unseen, rest = seen ++ unseen ->
        productos (scanLines initialScan (pre ++ line :: seen))
        = productos (scanLines initialScan pre))
  /\ Prices.extractPrices lower text = productos (scanLines initialScan pre).
Proof.
  intros Hsplit Hf Ht Hskip Hp Hs.
  pose proof (scanLine_end_marker lower _ line Hf Ht Hskip Hp Hs) as Hstep.
  assert (Hafter : forall later,
             productos (scanLines initialScan (pre ++ line :: later))
             = productos (scanLines initialScan pre)).
  { intros later. rewrite scanLines_app, scanLines_cons, Hstep.
    apply (scanLines_closed lower later
             {| inTable := false; headerFound := true;
                headerLines := headerLines (scanLines initialScan pre);
                productos := productos (scanLines initialScan pre) |});
      reflexivity. }
  split; [|split].
  - rewrite scanLines_app, scanLines_cons, Hstep. reflexivity.
  - intros seen unseen _. apply Hafter.
  - unfold Prices.extractPrices. rewrite Hsplit. apply Hafter.
Qed.
End ClosingFacts.

Lemma table_closes_only_on_end_marker_witness :
  (length lineTotal =? 0) = false
  /\ (inTable (Prices.scanLines toLowerCaseLatin1 initialScan
                 [lineHeader; rowValenton]) = true ->
      inTable (Prices.scanLines toLowerCaseLatin1 initialScan
                 ([lineHeader; rowValenton] ++ [lineTotal])) = false ->
      Prices.isNewSection lineTotal = true).
Proof.
  apply (table_closes_only_on_end_marker toLowerCaseLatin1
           (unlines [lineHeader; rowValenton; lineTotal; rowTomate])
           [lineHeader; rowValenton] lineTotal [rowTomate]).
  vm_compute. reflexivity.
Defined.

Lemma end_marker_closes_table_witness :
  Prices.extractPrices toLowerCaseLatin1
    (unlines [lineHeader; rowValenton; lineTotal; rowTomate])
  = [recordValenton].
Proof.
  apply (end_marker_closes_table toLowerCaseLatin1
           (unlines [lineHeader; rowValenton; lineTotal; rowTomate])
           [lineHeader; rowValenton] lineTotal [rowTomate]).
  - vm_compute. reflexivity.
  - vm_compute. reflexivity.
  - vm_compute. reflexivity.
  - left. vm_compute. reflexivity.
  - vm_compute. reflexivity.
  - vm_compute. reflexivity.
Defined.

(** C6 (as stated) fails: [Total precios] matches an end marker and is
    not a row, but it carries the header keyword [precio]; after the first
    record it is skipped as a repeated header, the table stays open and
    the next row is parsed. *)
Lemma end_marker_with_keyword_keeps_table_open :
  ~ endMarkerAlwaysCloses toLowerCaseLatin1.
Proof.
  intros H.
  specialize (H (unlines [lineHeader; rowValenton; lineTotalPrecios; rowTomate])
                [lineHeader; rowValenton] lineTotalPrecios [rowTomate]).
  destruct H as [Hclosed _]; try (vm_compute; reflexivity).
  vm_compute in Hclosed. discriminate.
Qed.

Example extractPrices_after_skipped_end_marker :
  Prices.extractPrices toLowerCaseLatin1
    (unlines [lineHeader; rowValenton; lineTotalPrecios; rowTomate])
  = [recordValenton; recordTomate].
Proof. vm_compute. reflexivity. Qed.

(** ** The date helper *)

(** Only the first two patterns can produce a date. *)
Lemma extractDate_needs_numeric_pattern text :
  reSearch Prices.reDayMonthYear text = None ->
  reSearch Prices.reYearMonthDay text = None ->
  Prices.extractDate text = None.
Proof.
  intros H0 H1. unfold Prices.extractDate. rewrite H0, H1.
  destruct (reSearch Prices.reDayDeMonthDeYear text); reflexivity.
Qed.

(** C7 (evaluation): a text whose only date is written as
    "D de <month> de YYYY" is matched by the third pattern, and the
    helper still answers [null]. *)
Theorem extractDate_long_form_is_dropped :
  reSearch Prices.reDayDeMonthDeYear (str "Bogota, 21 de noviembre de 2025")
  = Some (str "21", str "noviembre", str "2025")
  /\ Prices.extractDate (str "Bogota, 21 de noviembre de 2025") = None.
Proof. split; vm_compute; reflexivity. Qed.

Example extractDate_slashes :
  Prices.extractDate (str "Fecha: 5/11/2025") = Some (str "2025-11-05").
Proof. vm_compute. reflexivity. Qed.

(** The second pattern gives back the matched text as it stands. *)
Example extractDate_dashes_unpadded :
  Prices.extractDate (str "Fecha: 2025-1-5") = Some (str "2025-1-5").
Proof. vm_compute. reflexivity. Qed.

(** ** The range handler *)

Section HandlerFacts.
Variable Payload : Type.
Variable dateTime : jsstring -> option Z.
Variable processRange :
  jsstring -> jsstring -> Z -> Z -> list History.Effect * History.Response Payload.

Local Abbreviation GET := (History.GET dateTime processRange).

Lemma isEmpty_false s : s <> [] -> isEmpty s = false.
Proof. destruct s; [congruence | reflexivity]. Qed.

(** A request that passes the four checks reaches the rest of the
    handler. *)
Lemma GET_accepts f t a b :
  f <> [] -> t <> [] ->
  History.dateRegex f = true -> History.dateRegex t = true ->
  dateTime f = Some a -> dateTime t = Some b -> (a <= b)%Z ->
  GET (Some f) (Some t) = processRange f t a b.
Proof.
  intros Hf Ht Hrf Hrt Hdf Hdt Hab. unfold History.GET, History.isMissing.
  rewrite (isEmpty_false f Hf), (isEmpty_false t Ht), Hrf, Hrt, Hdf, Hdt.
  cbn [orb negb].
  destruct (b <? a)%Z eqn:E; [apply Z.ltb_lt in E; lia | reflexivity].
Qed.

End HandlerFacts.


Example GET_rejects_reversed_range :
  History.GET isoDateTime sampleRange
    (Some (str "2025-11-21")) (Some (str "2025-11-20"))
  = ([], History.JsonError 400 History.msgOrder).
Proof. vm_compute. reflexivity. Qed.

Example GET_accepts_range :
  History.GET isoDateTime sampleRange
    (Some (str "2025-11-20")) (Some (str "2025-11-21"))
  = ([History.FetchPdf 1763596800000], History.JsonOk 86400000%Z).
Proof. vm_compute. reflexivity. Qed.

(** ** The two copies of the core *)

(** C9: the copies of the table-extraction core in the two route files
    compute the same function: [extractPrices] returns the same records
    for every text, and [parseTableRow] and [isNewSection] agree on every
    line. *)
Theorem routes_agree (toLowerCase : jsstring -> jsstring) :
  (forall text,
      Prices.extractPrices toLowerCase text = History.extractPrices toLowerCase text)
  /\ (forall line, Prices.parseTableRow line = History.parseTableRow line)
  /\ (forall line, Prices.isNewSection line = History.isNewSection line).
Proof.
  split; [|split]; intros; reflexivity.
Qed.


(** * Further properties *)

(** ** Words and normalized lines *)

Lemma collapseWs_go_spaced s : forall b,
  spaced_go b (collapseWs_go b s) = true.
Proof.
  induction s as [|c s IH]; intros b; [reflexivity|].
  cbn [collapseWs_go]. destruct (isWhiteSpace c) eqn:E.
  - destruct b; [apply IH|].
    cbn [spaced_go]. replace (isWhiteSpace space) with true by reflexivity.
    rewrite IH. reflexivity.
  - cbn [spaced_go]. rewrite E. apply IH.
Qed.

Lemma spaced_go_weaken s : forall b, spaced_go b s = true -> spaced_go false s = true.
Proof.
  destruct s as [|c s]; intros b H; [reflexivity|].
  cbn [spaced_go] in *. destruct (isWhiteSpace c); [|exact H].
  apply andb_true_iff in H. destruct H as [H Hs].
  apply andb_true_iff in H. destruct H as [_ Hc].
  rewrite Hc, Hs. reflexivity.
Qed.

Lemma spaced_go_prefix m z : forall b,
  spaced_go b (m ++ z) = true -> spaced_go b m = true.
Proof.
  induction m as [|c m IH]; intros b H; [reflexivity|].
  cbn [app spaced_go] in *. destruct (isWhiteSpace c).
  - apply andb_true_iff in H. destruct H as [H Hs].
    rewrite H. cbn [andb]. eapply IH, Hs.
  - eapply IH, H.
Qed.

Lemma spaced_go_suffix a m : forall b,
  spaced_go b (a ++ m) = true -> spaced_go false m = true.
Proof.
  induction a as [|c a IH]; intros b H.
  - eapply spaced_go_weaken, H.
  - cbn [app spaced_go] in H. destruct (isWhiteSpace c).
    + apply andb_true_iff in H. destruct H as [_ Hs]. eapply IH, Hs.
    + eapply IH, H.
Qed.

Lemma spaced_go_head s b :
  spaced_go b s = true ->
  match s with [] => True | c :: _ => isWhiteSpace c = false end ->
  spaced_go true s = true.
Proof.
  destruct s as [|c s]; [reflexivity|]. cbn [spaced_go].
  intros H Hc. rewrite Hc in *. exact H.
Qed.

(** A string and its trimming: only white space is cut off, at both
    ends. *)
Lemma trim_decompose s :
  exists a z, s = a ++ trim s ++ z
              /\ forallb isWhiteSpace a = true /\ forallb isWhiteSpace z = true.
Proof.
  set (d := dropWhile isWhiteSpace s).
  exists (takeWhile isWhiteSpace s), (rev (takeWhile isWhiteSpace (rev d))).
  split; [|split].
  - rewrite (takeWhile_dropWhile isWhiteSpace s) at 1. f_equal. fold d.
    unfold trim. fold d. rewrite <- rev_app_distr, <- takeWhile_dropWhile.
    symmetry. apply rev_involutive.
  - apply takeWhile_all.
  - rewrite forallb_forall. intros c Hc. apply in_rev in Hc.
    pose proof (takeWhile_all isWhiteSpace (rev d)) as Hall.
    rewrite forallb_forall in Hall. auto.
Qed.

Lemma canonical_trim s : spaced_go false s = true -> canonical (trim s).
Proof.
  intros H. destruct (trim_decompose s) as [a [z [Hs [_ _]]]].
  destruct (trim_shape s) as [Hhead Hlast].
  split; [|exact Hlast].
  apply spaced_go_head with (b := false); [|exact Hhead].
  rewrite Hs in H. apply spaced_go_suffix in H.
  eapply spaced_go_prefix, H.
Qed.

Lemma canonical_normalize line : canonical (Prices.normalize line).
Proof.
  apply canonical_trim. unfold collapseWs. apply collapseWs_go_spaced.
Qed.

Lemma spaced_collapse s : forall b,
  spaced_go b s = true -> collapseWs_go b s = s.
Proof.
  induction s as [|c s IH]; intros b H; [reflexivity|].
  cbn [spaced_go collapseWs_go] in *. destruct (isWhiteSpace c).
  - apply andb_true_iff in H. destruct H as [H Hs].
    apply andb_true_iff in H. destruct H as [Hb Hc].
    apply negb_true_iff in Hb. subst b. apply cu_eqb_eq in Hc. subst c.
    f_equal. apply IH, Hs.
  - f_equal. apply IH, H.
Qed.

Lemma canonical_head s :
  canonical s -> match s with [] => True | c :: _ => isWhiteSpace c = false end.
Proof.
  intros [H _]. destruct s as [|c s]; [exact I|].
  cbn [spaced_go] in H. destruct (isWhiteSpace c); [discriminate | reflexivity].
Qed.

Lemma canonical_fix s : canonical s -> Prices.normalize s = s.
Proof.
  intros Hc. unfold Prices.normalize, collapseWs.
  rewrite spaced_collapse by (eapply spaced_go_weaken, Hc).
  apply trim_fix; [apply canonical_head, Hc | apply Hc].
Qed.

Lemma splitWs_go_nonempty s : forall acc inws, splitWs_go acc inws s <> [].
Proof.
  induction s as [|c s IH]; intros acc inws; cbn [splitWs_go]; [discriminate|].
  destruct (isWhiteSpace c); [destruct inws; [apply IH | discriminate] | apply IH].
Qed.

Lemma joinSpace_cons w rest :
  rest <> [] -> joinSpace (w :: rest) = w ++ space :: joinSpace rest.
Proof. destruct rest; [congruence | reflexivity]. Qed.

Lemma wsFree_rev w : wsFree (rev w) = wsFree w.
Proof.
  unfold wsFree. destruct (forallb _ w) eqn:E.
  - rewrite forallb_forall in *. intros c Hc. apply E, in_rev, Hc.
  - destruct (forallb _ (rev w)) eqn:E'; [|reflexivity].
    rewrite forallb_forall in E'.
    assert (forallb (fun c => negb (isWhiteSpace c)) w = true).
    { rewrite forallb_forall. intros c Hc. apply E'. rewrite <- in_rev. exact Hc. }
    congruence.
Qed.

Lemma isWord_rev_acc acc :
  acc <> [] -> wsFree acc = true -> isWord (rev acc) = true.
Proof.
  intros Hne Hacc. unfold isWord. rewrite wsFree_rev, Hacc, andb_true_r.
  destruct (rev acc) eqn:E; [|reflexivity].
  apply (f_equal (@rev _)) in E. rewrite rev_involutive in E. cbn in E. congruence.
Qed.

(** Splitting a canonical string gives its words, and joining them gives
    the string back.  [acc] is the word being read. *)
Lemma splitWs_go_canonical s : forall acc,
  wsFree acc = true ->
  spaced_go (isEmpty acc) s = true ->
  (s = [] -> acc <> []) ->
  (forall x c, s = x ++ [c] -> isWhiteSpace c = false) ->
  forallb isWord (splitWs_go acc false s) = true
  /\ joinSpace (splitWs_go acc false s) = rev acc ++ s.
Proof.
  induction s as [|c s IH]; intros acc Hacc Hsp Hnil Hend.
  - cbn [splitWs_go forallb joinSpace]. rewrite app_nil_r, andb_true_r.
    split; [|reflexivity]. apply isWord_rev_acc; auto.
  - cbn [spaced_go splitWs_go] in *. destruct (isWhiteSpace c) eqn:Ec.
    + apply andb_true_iff in Hsp. destruct Hsp as [Hsp Hs].
      apply andb_true_iff in Hsp. destruct Hsp as [Hne Hc].
      apply cu_eqb_eq in Hc. subst c.
      assert (Hacc' : acc <> []).
      { destruct acc; [discriminate | discriminate]. }
      destruct s as [|d s].
      { specialize (Hend [] space eq_refl). congruence. }
      assert (Hd : isWhiteSpace d = false).
      { cbn [spaced_go] in Hs. destruct (isWhiteSpace d); [discriminate | reflexivity]. }
      assert (Hgo : splitWs_go [] true (d :: s) = splitWs_go [] false (d :: s)).
      { cbn [splitWs_go]. rewrite Hd. reflexivity. }
      rewrite Hgo.
      destruct (IH [] eq_refl Hs) as [Hw Hj].
      { discriminate. }
      { intros x c Hx. apply (Hend (space :: x) c). rewrite Hx. reflexivity. }
      split.
      * cbn [forallb]. rewrite Hw, andb_true_r. apply isWord_rev_acc; auto.
      * rewrite joinSpace_cons by apply splitWs_go_nonempty.
        rewrite Hj. reflexivity.
    + destruct (IH (c :: acc)) as [Hw Hj].
      * unfold wsFree in *. cbn [forallb]. rewrite Ec, Hacc. reflexivity.
      * exact Hsp.
      * discriminate.
      * intros x c' Hx. apply (Hend (c :: x) c'). rewrite Hx. reflexivity.
      * split; [exact Hw|]. rewrite Hj. cbn [rev]. rewrite <- app_assoc.
        reflexivity.
Qed.

Lemma canonical_last s x c :
  canonical s -> s = x ++ [c] -> isWhiteSpace c = false.
Proof.
  intros [_ Hend] ->. rewrite rev_app_distr in Hend. exact Hend.
Qed.

Lemma splitWs_canonical s :
  canonical s -> s <> [] ->
  forallb isWord (splitWs s) = true /\ joinSpace (splitWs s) = s.
Proof.
  intros Hc Hne.
  apply (splitWs_go_canonical s []); auto.
  - apply Hc.
  - intros x c. apply canonical_last, Hc.
Qed.

Lemma substring_firstn s b :
  (0 <= b)%Z -> substring s 0 b = firstn (Z.to_nat b) s.
Proof.
  intros Hb. unfold substring, clampIndex, strlen.
  rewrite Z.max_id, Z.min_l by lia. cbn [Z.to_nat].
  rewrite Nat.min_0_l, Nat.max_0_l, Nat.sub_0_r. cbn [skipn].
  rewrite (Z.max_l b 0) by lia.
  destruct (Z_le_gt_dec b (Z.of_nat (length s))) as [Hle | Hgt].
  - rewrite Z.min_l by lia. reflexivity.
  - rewrite Z.min_r by lia. rewrite Nat2Z.id.
    rewrite !firstn_all2; [reflexivity | lia | lia].
Qed.

Lemma indexOf_from_range s t : forall i,
  (0 <= i)%Z ->
  indexOf_from i s t = (-1)%Z \/ (i <= indexOf_from i s t)%Z.
Proof.
  induction s as [|c s IH]; intros i Hi; cbn [indexOf_from].
  - destruct (isPrefix t []); [right; lia | left; reflexivity].
  - destruct (isPrefix t (c :: s)); [right; lia|].
    destruct (IH (i + 1)%Z ltac:(lia)) as [H | H]; [left; exact H | right; lia].
Qed.

Lemma indexOf_from_found s t : forall i pre post,
  s = pre ++ t ++ post -> (i <= indexOf_from i s t)%Z.
Proof.
  induction s as [|c s IH]; intros i pre post Hs.
  - destruct pre; [|discriminate]. cbn [app] in Hs.
    cbn [indexOf_from]. rewrite Hs, isPrefix_app. lia.
  - cbn [indexOf_from]. destruct (isPrefix t (c :: s)) eqn:E; [lia|].
    destruct pre as [|p pre].
    + cbn [app] in Hs. rewrite Hs, isPrefix_app in E. discriminate.
    + inversion Hs; subst. specialize (IH (i + 1)%Z pre post eq_refl). lia.
Qed.

Lemma matchAllPrices_occurs s : forall skip t,
  In t (matchAllPrices skip s) -> exists pre post, s = pre ++ t ++ post.
Proof.
  induction s as [|c s IH]; intros skip t Hin; simpl in Hin; [contradiction|].
  assert (Hrec : forall k, In t (matchAllPrices k s) ->
                 exists pre post, c :: s = pre ++ t ++ post).
  { intros k Hk. destruct (IH k t Hk) as [pre [post ->]].
    exists (c :: pre), post. reflexivity. }
  destruct skip as [|k]; [|eauto].
  destruct (cu_eqb c dollar) eqn:Ec; [|eauto].
  destruct (takeWhile isPriceChar s) as [|d run] eqn:Er; [eauto|].
  destruct Hin as [<- | Hin]; [|eauto].
  exists [], (dropWhile isPriceChar s).
  change ([] ++ (c :: d :: run) ++ dropWhile isPriceChar s)
    with (c :: (d :: run) ++ dropWhile isPriceChar s).
  f_equal. rewrite <- Er. apply takeWhile_dropWhile.
Qed.

(** The first occurrence of a chosen price always exists: the index
    test of the parser cannot fail. *)
Lemma indexOf_valid_token line t :
  In t (Prices.validPriceTokens line) ->
  (0 <= indexOf (Prices.normalize line) t)%Z.
Proof.
  intros Hin. apply validPriceTokens_matched in Hin.
  destruct (matchAllPrices_occurs _ _ _ Hin) as [pre [post Hs]].
  unfold indexOf. eapply indexOf_from_found. exact Hs.
Qed.

Lemma all_ws_head_nil a x :
  forallb isWhiteSpace a = true ->
  match a ++ x with [] => True | c :: _ => isWhiteSpace c = false end ->
  a = [].
Proof.
  destruct a as [|c a]; [reflexivity|]. cbn. intros H Hc.
  apply andb_true_iff in H. destruct H as [H _]. congruence.
Qed.

(** The trimmed prefix of a canonical string is canonical and still a
    prefix. *)
Lemma canonical_trim_firstn s k :
  canonical s ->
  canonical (trim (firstn k s))
  /\ exists rest, s = trim (firstn k s) ++ rest.
Proof.
  intros Hc.
  assert (Hsp : spaced_go false (firstn k s) = true).
  { apply spaced_go_prefix with (z := skipn k s).
    rewrite firstn_skipn. eapply spaced_go_weaken, Hc. }
  split; [apply canonical_trim, Hsp|].
  destruct (trim_decompose (firstn k s)) as [a [z [Hx [Ha _]]]].
  assert (a = []).
  { apply all_ws_head_nil with (x := trim (firstn k s) ++ z); [exact Ha|].
    rewrite <- Hx. pose proof (canonical_head s Hc) as Hh.
    destruct s as [|c s]; [destruct k; exact I|].
    destruct k; [exact I | exact Hh]. }
  subst a. cbn [app] in Hx.
  exists (z ++ skipn k s).
  rewrite app_assoc, <- Hx. symmetry. apply firstn_skipn.
Qed.

Lemma splitWs_nil : splitWs [] = [[]].
Proof. reflexivity. Qed.

(** The words in front of the prices, whenever there are at least two
    pieces: all of them are words, and joined by single spaces they are
    the beginning of the normalized line. *)
Lemma leadingWords_words line :
  3 <= length (currencyTokens line) ->
  2 <= length (leadingWords line) ->
  forallb isWord (leadingWords line) = true
  /\ exists rest,
       Prices.normalize line = joinSpace (leadingWords line) ++ rest.
Proof.
  intros Htok Hlen. unfold leadingWords in *.
  set (normalized := Prices.normalize line) in *.
  set (price0 := nth 0 (sliceLast3 (currencyTokens line)) []) in *.
  assert (Hin : In price0 (Prices.validPriceTokens line)).
  { rewrite validPriceTokens_of_line.
    destruct (sliceLast3_spec (currencyTokens line) Htok)
      as [pre [a [b [c [Hv [Hs _]]]]]].
    subst price0. rewrite Hs. cbn [nth]. rewrite Hv.
    apply in_or_app. right. left. reflexivity. }
  pose proof (indexOf_valid_token line price0 Hin) as Hidx.
  fold normalized in Hidx.
  rewrite substring_firstn in * by exact Hidx.
  destruct (canonical_trim_firstn normalized
              (Z.to_nat (indexOf normalized price0))
              (canonical_normalize line)) as [Hc [rest Hrest]].
  set (before := trim (firstn (Z.to_nat (indexOf normalized price0)) normalized)) in *.
  assert (Hne : before <> []).
  { intros E. rewrite E in Hlen. cbn in Hlen. lia. }
  destruct (splitWs_canonical before Hc Hne) as [Hw Hj].
  split; [exact Hw|]. exists rest. rewrite Hj. exact Hrest.
Qed.

Lemma last_three_parts (parts : list jsstring) :
  4 <= length parts ->
  exists words pres qty unit,
    parts = words ++ [pres; qty; unit] /\ words <> [] /\
    firstn (length parts - 3) parts = words /\
    nth (length parts - 3) parts [] = pres /\
    nth (length parts - 2) parts [] = qty /\
    nth (length parts - 1) parts [] = unit.
Proof.
  intros Hlen.
  destruct (sliceLast3_spec parts ltac:(lia)) as [words [a [b [c [Hp [_ Hw]]]]]].
  exists words, a, b, c. subst parts.
  rewrite length_app in *. cbn [length] in *.
  split; [reflexivity|].
  split; [intros ->; cbn in *; lia|].
  replace (length words + 3 - 3) with (length words) by lia.
  replace (length words + 3 - 2) with (length words + 1) by lia.
  replace (length words + 3 - 1) with (length words + 2) by lia.
  rewrite firstn_app, Nat.sub_diag, firstn_all, app_nil_r.
  rewrite !app_nth2 by lia.
  replace (length words - length words) with 0 by lia.
  replace (length words + 1 - length words) with 1 by lia.
  replace (length words + 2 - length words) with 2 by lia.
  repeat split; reflexivity.
Qed.

Lemma isWord_spec w :
  isWord w = true -> w <> [] /\ wsFree w = true.
Proof.
  unfold isWord. intros H. apply andb_true_iff in H. destruct H as [H1 H2].
  split; [|exact H2]. destruct w; [discriminate | discriminate].
Qed.

Lemma trim_word w : isWord w = true -> trim w = w.
Proof. intros H. apply trim_no_ws. apply (isWord_spec w H). Qed.

Lemma joinSpace_nonempty ws :
  ws <> [] -> forallb isWord ws = true -> joinSpace ws <> [].
Proof.
  destruct ws as [|w rest]; [congruence|]. intros _ H.
  cbn [forallb] in H. apply andb_true_iff in H. destruct H as [Hw _].
  destruct (isWord_spec w Hw) as [Hne _].
  destruct rest; cbn [joinSpace]; [exact Hne|].
  destruct w; [congruence | discriminate].
Qed.

Lemma joinSpace_head ws :
  forallb isWord ws = true ->
  match joinSpace ws with [] => True | c :: _ => isWhiteSpace c = false end.
Proof.
  destruct ws as [|w rest]; [intros _; exact I|]. intros H.
  cbn [forallb] in H. apply andb_true_iff in H. destruct H as [Hw _].
  destruct (isWord_spec w Hw) as [Hne Hfree].
  destruct w as [|c w]; [congruence|].
  unfold wsFree in Hfree. cbn [forallb] in Hfree.
  apply andb_true_iff in Hfree. destruct Hfree as [Hc _].
  apply negb_true_iff in Hc.
  destruct rest; cbn [joinSpace app]; exact Hc.
Qed.

Lemma joinSpace_last ws : forall x c,
  forallb isWord ws = true ->
  joinSpace ws = x ++ [c] -> isWhiteSpace c = false.
Proof.
  induction ws as [|w rest IH]; intros x c H Hj.
  - destruct x; discriminate.
  - cbn [forallb] in H. apply andb_true_iff in H. destruct H as [Hw Hrest].
    destruct rest as [|w' rest'].
    + cbn [joinSpace] in Hj. destruct (isWord_spec w Hw) as [_ Hfree].
      unfold wsFree in Hfree. rewrite forallb_forall in Hfree.
      apply negb_true_iff, Hfree. rewrite Hj. apply in_or_app. right. left.
      reflexivity.
    + rewrite joinSpace_cons in Hj by discriminate.
      destruct (exists_last (joinSpace_nonempty (w' :: rest') ltac:(discriminate) Hrest))
        as [y [d Hy]].
      rewrite Hy in Hj.
      change (w ++ space :: y ++ [d]) with (w ++ (space :: y) ++ [d]) in Hj.
      rewrite app_assoc in Hj. apply app_inj_tail in Hj. destruct Hj as [_ <-].
      eapply IH; [exact Hrest | exact Hy].
Qed.

Lemma trim_joinSpace ws :
  forallb isWord ws = true -> trim (joinSpace ws) = joinSpace ws.
Proof.
  intros H. apply trim_fix; [apply joinSpace_head, H|].
  destruct (rev (joinSpace ws)) as [|c l] eqn:E; [exact I|].
  apply (joinSpace_last ws (rev l) c H).
  apply (f_equal (@rev _)) in E. rewrite rev_involutive in E. exact E.
Qed.

Lemma forallb_app_l {A} (p : A -> bool) a b :
  forallb p (a ++ b) = true -> forallb p a = true.
Proof. rewrite forallb_app. intros H. apply andb_true_iff in H. apply H. Qed.

Lemma forallb_app_r {A} (p : A -> bool) a b :
  forallb p (a ++ b) = true -> forallb p b = true.
Proof. rewrite forallb_app. intros H. apply andb_true_iff in H. apply H. Qed.

(** The parser, with the option of [match] folded away. *)
Lemma parseTableRow_unfold line :
  Prices.parseTableRow line =
  (if length (currencyTokens line) <? 3 then None else
   let three := sliceLast3 (currencyTokens line) in
   let normalized := Prices.normalize line in
   if (indexOf normalized (nth 0 three []) =? -1)%Z then None else
   let parts := leadingWords line in
   let n := length parts in
   if n <? 4 then None else
   if isEmpty (joinSpace (firstn (n - 3) parts))
      || isEmpty (nth (n - 3) parts [])
      || negb (isAllDigits (nth (n - 2) parts []))
      || isEmpty (nth (n - 1) parts [])
   then None else
   let after := trim (substringFrom normalized
                        (lastIndexOf normalized (nth 2 three [])
                         + strlen (nth 2 three []))) in
   Some {| name := trim (joinSpace (firstn (n - 3) parts));
           presentation := trim (nth (n - 3) parts []);
           quantity := trim (nth (n - 2) parts []);
           unit_ := trim (nth (n - 1) parts []);
           extraQualityPrice := dollar :: Prices.cleanPrice (nth 0 three []);
           firstQualityPrice := dollar :: Prices.cleanPrice (nth 1 three []);
           unitPrice := dollar :: Prices.cleanPrice (nth 2 three []);
           previousDayVariation :=
             if isEmpty (trim after) then str "N/A" else trim after |}).
Proof.
  unfold leadingWords. rewrite <- validPriceTokens_of_line.
  unfold Prices.parseTableRow, Prices.validPriceTokens.
  destruct (Prices.validPricesOf (Prices.normalize line)) as [valid|];
    reflexivity.
Qed.

(** ** The row parser: when it succeeds and what it returns *)

Lemma first_chosen_price_valid line :
  3 <= length (currencyTokens line) ->
  In (nth 0 (sliceLast3 (currencyTokens line)) []) (Prices.validPriceTokens line).
Proof.
  intros Htok. rewrite validPriceTokens_of_line.
  destruct (sliceLast3_spec (currencyTokens line) Htok)
    as [pre [a [b [c [Hv [Hs _]]]]]].
  rewrite Hs. cbn [nth]. rewrite Hv. apply in_or_app. right. left. reflexivity.
Qed.

Lemma parseTableRow_succeeds_iff_aux line :
  (exists r, Prices.parseTableRow line = Some r)
  <->
  3 <= length (currencyTokens line)
  /\ 4 <= length (leadingWords line)
  /\ isAllDigits (nth (length (leadingWords line) - 2) (leadingWords line) [])
     = true.
Proof.
  rewrite parseTableRow_unfold. cbv zeta. split.
  - intros [r H].
    destruct (length (currencyTokens line) <? 3) eqn:Etok; [discriminate|].
    apply Nat.ltb_ge in Etok.
    destruct (indexOf _ _ =? -1)%Z; [discriminate|].
    destruct (length (leadingWords line) <? 4) eqn:Ep; [discriminate|].
    apply Nat.ltb_ge in Ep.
    destruct (isAllDigits (nth (length (leadingWords line) - 2)
                               (leadingWords line) [])) eqn:Eq.
    + auto.
    + cbn [negb] in H. rewrite orb_true_r in H. cbn [orb] in H. discriminate.
  - intros [Htok [Hparts Hq]].
    apply Nat.ltb_ge in Htok. rewrite Htok. apply Nat.ltb_ge in Htok.
    pose proof (indexOf_valid_token line _ (first_chosen_price_valid line Htok))
      as Hidx.
    destruct (indexOf _ _ =? -1)%Z eqn:Ei; [apply Z.eqb_eq in Ei; lia|].
    apply Nat.ltb_ge in Hparts. rewrite Hparts. apply Nat.ltb_ge in Hparts.
    destruct (leadingWords_words line Htok ltac:(lia)) as [Hw _].
    destruct (last_three_parts (leadingWords line) Hparts)
      as [words [pres [qty [unit [Hp [Hne [Hf [Hn3 [Hn2 Hn1]]]]]]]]].
    rewrite Hf, Hn3, Hn1, Hq.
    rewrite Hp in Hw.
    pose proof (forallb_app_l _ _ _ Hw) as Hwords.
    pose proof (forallb_app_r _ _ _ Hw) as Hlast.
    cbn [forallb] in Hlast.
    apply andb_true_iff in Hlast. destruct Hlast as [Hpres Hlast].
    apply andb_true_iff in Hlast. destruct Hlast as [_ Hlast].
    apply andb_true_iff in Hlast. destruct Hlast as [Hunit _].
    destruct (isWord_spec pres Hpres) as [Hpne _].
    destruct (isWord_spec unit Hunit) as [Hune _].
    pose proof (joinSpace_nonempty words Hne Hwords) as Hname.
    rewrite (isEmpty_false _ Hname), (isEmpty_false _ Hpne),
      (isEmpty_false _ Hune).
    cbn [orb negb]. eexists. reflexivity.
Qed.

(** X1: the row parser returns a record exactly when the line has at
    least three valid currency tokens, at least four words stand before
    the first occurrence of the first chosen price, and the word before
    the last of them is all digits.  The other tests of the parser (the
    index of the first price, the emptiness of name, presentation and
    unit) never reject a line. *)
Theorem parseTableRow_succeeds_iff line :
  (exists r, Prices.parseTableRow line = Some r)
  <->
  3 <= length (currencyTokens line)
  /\ 4 <= length (leadingWords line)
  /\ isAllDigits (nth (length (leadingWords line) - 2) (leadingWords line) [])
     = true.
Proof. exact (parseTableRow_succeeds_iff_aux line). Qed.

Lemma parseTableRow_fields line r :
  Prices.parseTableRow line = Some r ->
  exists words,
    words <> []
    /\ leadingWords line = words ++ [presentation r; quantity r; unit_ r]
    /\ forallb isWord (leadingWords line) = true
    /\ name r = joinSpace words
    /\ (exists rest,
          Prices.normalize line = joinSpace (leadingWords line) ++ rest)
    /\ previousDayVariation r <> []
    /\ trim (previousDayVariation r) = previousDayVariation r.
Proof.
  intros Hparse.
  destruct (proj1 (parseTableRow_succeeds_iff_aux line) (ex_intro _ r Hparse))
    as [Htok [Hparts Hq]].
  destruct (leadingWords_words line Htok ltac:(lia)) as [Hw Hrest].
  destruct (last_three_parts (leadingWords line) Hparts)
    as [words [pres [qty [unit [Hp [Hne [Hf [Hn3 [Hn2 Hn1]]]]]]]]].
  rewrite parseTableRow_unfold in Hparse. cbv zeta in Hparse.
  destruct (length (currencyTokens line) <? 3); [discriminate|].
  destruct (indexOf _ _ =? -1)%Z; [discriminate|].
  destruct (length (leadingWords line) <? 4); [discriminate|].
  destruct (isEmpty _ || isEmpty _ || negb _ || isEmpty _); [discriminate|].
  rewrite Hf, Hn3, Hn2, Hn1 in Hparse.
  pose proof Hw as Hw'. rewrite Hp in Hw'.
  pose proof (forallb_app_l _ _ _ Hw') as Hwords.
  pose proof (forallb_app_r _ _ _ Hw') as Hlast.
  cbn [forallb] in Hlast.
  apply andb_true_iff in Hlast. destruct Hlast as [Hpres Hlast].
  apply andb_true_iff in Hlast. destruct Hlast as [Hqty Hlast].
  apply andb_true_iff in Hlast. destruct Hlast as [Hunit _].
  rewrite (trim_joinSpace words Hwords), (trim_word pres Hpres),
    (trim_word qty Hqty), (trim_word unit Hunit) in Hparse.
  inversion Hparse; subst r; clear Hparse. cbn.
  exists words. repeat split; auto.
  - destruct (isEmpty (trim _)) eqn:E; [discriminate|].
    intros Hnil. rewrite Hnil in E. discriminate.
  - destruct (isEmpty (trim _)) eqn:E; [reflexivity|].
    apply trim_idempotent.
Qed.



(** X3: normalizing is idempotent, so the parser gives the same result
    on a line and on its normalized form. *)
Theorem parseTableRow_normalize line :
  Prices.normalize (Prices.normalize line) = Prices.normalize line
  /\ Prices.parseTableRow (Prices.normalize line) = Prices.parseTableRow line.
Proof.
  assert (H : Prices.normalize (Prices.normalize line) = Prices.normalize line)
    by apply canonical_fix, canonical_normalize.
  split; [exact H|].
  unfold Prices.parseTableRow. rewrite H. reflexivity.
Qed.


(** ** Parsing a well-formed row *)

Lemma joinSpace_app xs ys :
  xs <> [] -> ys <> [] ->
  joinSpace (xs ++ ys) = joinSpace xs ++ space :: joinSpace ys.
Proof.
  intros Hx Hy. induction xs as [|x xs IH]; [congruence|].
  destruct xs as [|x' xs].
  - cbn [app]. rewrite joinSpace_cons by exact Hy. reflexivity.
  - change ((x :: x' :: xs) ++ ys) with (x :: ((x' :: xs) ++ ys)).
    rewrite joinSpace_cons by discriminate.
    rewrite IH by discriminate.
    rewrite (joinSpace_cons x (x' :: xs)) by discriminate.
    rewrite <- app_assoc. reflexivity.
Qed.

Lemma spaced_go_word w x : forall b,
  wsFree w = true -> w <> [] ->
  spaced_go b (w ++ x) = spaced_go false x.
Proof.
  induction w as [|c w IH]; intros b Hw Hne; [congruence|].
  unfold wsFree in Hw. cbn [forallb] in Hw.
  apply andb_true_iff in Hw. destruct Hw as [Hc Hw].
  apply negb_true_iff in Hc.
  cbn [app spaced_go]. rewrite Hc.
  destruct w as [|d w]; [reflexivity|].
  apply IH; [exact Hw | discriminate].
Qed.

Lemma spaced_joinSpace ws :
  forallb isWord ws = true -> spaced_go true (joinSpace ws) = true.
Proof.
  induction ws as [|w rest IH]; intros H; [reflexivity|].
  cbn [forallb] in H. apply andb_true_iff in H. destruct H as [Hw Hrest].
  destruct (isWord_spec w Hw) as [Hne Hfree].
  destruct rest as [|w' rest'].
  - cbn [joinSpace]. rewrite <- (app_nil_r w).
    rewrite spaced_go_word by assumption. reflexivity.
  - rewrite joinSpace_cons by discriminate.
    rewrite spaced_go_word by assumption.
    cbn [spaced_go]. replace (isWhiteSpace space) with true by reflexivity.
    rewrite IH by exact Hrest. reflexivity.
Qed.

Lemma canonical_joinSpace ws :
  forallb isWord ws = true -> canonical (joinSpace ws).
Proof.
  intros H. split; [apply spaced_joinSpace, H|].
  destruct (rev (joinSpace ws)) as [|c l] eqn:E; [exact I|].
  apply (joinSpace_last ws (rev l) c H).
  apply (f_equal (@rev _)) in E. rewrite rev_involutive in E. exact E.
Qed.

Lemma splitWs_go_word w : forall acc x,
  wsFree w = true ->
  splitWs_go acc false (w ++ x) = splitWs_go (rev w ++ acc) false x.
Proof.
  induction w as [|c w IH]; intros acc x Hw; [reflexivity|].
  unfold wsFree in Hw. cbn [forallb] in Hw.
  apply andb_true_iff in Hw. destruct Hw as [Hc Hw].
  apply negb_true_iff in Hc.
  cbn [app splitWs_go]. rewrite Hc. rewrite IH by exact Hw.
  cbn [rev]. rewrite <- app_assoc. reflexivity.
Qed.

(** Splitting undoes joining. *)
Lemma splitWs_joinSpace ws :
  ws <> [] -> forallb isWord ws = true -> splitWs (joinSpace ws) = ws.
Proof.
  unfold splitWs.
  induction ws as [|w rest IH]; intros Hne H; [congruence|].
  cbn [forallb] in H. apply andb_true_iff in H. destruct H as [Hw Hrest].
  destruct (isWord_spec w Hw) as [_ Hfree].
  destruct rest as [|w' rest'].
  - cbn [joinSpace]. rewrite <- (app_nil_r w) at 1.
    rewrite splitWs_go_word by exact Hfree.
    cbn [splitWs_go]. rewrite app_nil_r, rev_involutive. reflexivity.
  - rewrite joinSpace_cons by discriminate.
    rewrite splitWs_go_word by exact Hfree.
    cbn [splitWs_go]. replace (isWhiteSpace space) with true by reflexivity.
    rewrite app_nil_r, rev_involutive. f_equal.
    pose proof (joinSpace_head (w' :: rest') Hrest) as Hh.
    pose proof (joinSpace_nonempty (w' :: rest') ltac:(discriminate) Hrest) as Hn.
    rewrite <- (IH ltac:(discriminate) Hrest) at 2.
    destruct (joinSpace (w' :: rest')) as [|c J]; [congruence|].
    cbn [splitWs_go]. rewrite Hh. reflexivity.
Qed.

Lemma dropWhile_app_all p a x :
  forallb p a = true -> dropWhile p (a ++ x) = dropWhile p x.
Proof.
  induction a as [|c a IH]; [reflexivity|]. cbn [forallb app dropWhile].
  intros H. apply andb_true_iff in H. destruct H as [Hc Ha].
  rewrite Hc. auto.
Qed.

(** White space after a canonical string is trimmed away. *)
Lemma trim_app_ws s z :
  canonical s -> s <> [] -> forallb isWhiteSpace z = true ->
  trim (s ++ z) = s.
Proof.
  intros Hc Hne Hz. unfold trim.
  pose proof (canonical_head s Hc) as Hh.
  rewrite (dropWhile_fix isWhiteSpace (s ++ z)).
  - rewrite rev_app_distr.
    rewrite dropWhile_app_all.
    + rewrite dropWhile_fix by apply Hc. apply rev_involutive.
    + rewrite forallb_forall in *. intros c Hin. apply Hz, in_rev, Hin.
  - destruct s as [|c s]; [congruence | exact Hh].
Qed.

Lemma dollarFree_no_match a : forall x,
  dollarFree a = true ->
  matchAllPrices 0 (a ++ x) = matchAllPrices 0 x.
Proof.
  induction a as [|c a IH]; intros x H; [reflexivity|].
  unfold dollarFree in H. cbn [forallb] in H.
  apply andb_true_iff in H. destruct H as [Hc Ha].
  apply negb_true_iff in Hc.
  cbn [app]. rewrite matchAllPrices_step, Hc. apply IH, Ha.
Qed.

Lemma price_then_rest b x :
  forallb isPriceChar b = true -> b <> [] ->
  match x with [] => True | c :: _ => isPriceChar c = false end ->
  matchAllPrices 0 ((dollar :: b) ++ x) = (dollar :: b) :: matchAllPrices 0 x.
Proof.
  intros Hb Hne Hx. cbn [app]. rewrite matchAllPrices_step.
  replace (cu_eqb dollar dollar) with true by reflexivity.
  rewrite takeWhile_app_all by exact Hb.
  rewrite dropWhile_app_all by exact Hb.
  assert (Ht : takeWhile isPriceChar x = []).
  { destruct x as [|c x]; [reflexivity|]. cbn. rewrite Hx. reflexivity. }
  assert (Hd : dropWhile isPriceChar x = x).
  { destruct x as [|c x]; [reflexivity|]. cbn. rewrite Hx. reflexivity. }
  rewrite Ht, Hd, app_nil_r.
  destruct b; [congruence | reflexivity].
Qed.

Lemma dollarFree_not_prefix a : forall i b x,
  dollarFree a = true ->
  indexOf_from i (a ++ (dollar :: b) ++ x) (dollar :: b)
  = (i + Z.of_nat (length a))%Z.
Proof.
  induction a as [|c a IH]; intros i b x H.
  - cbn [app length]. 
    change (indexOf_from i (dollar :: b ++ x) (dollar :: b))
      with (indexOf_from i ((dollar :: b) ++ x) (dollar :: b)).
    destruct ((dollar :: b) ++ x) eqn:E; [discriminate|].
    cbn [indexOf_from]. rewrite <- E, isPrefix_app. lia.
  - unfold dollarFree in H. cbn [forallb] in H.
    apply andb_true_iff in H. destruct H as [Hc Ha].
    apply negb_true_iff in Hc.
    change ((c :: a) ++ (dollar :: b) ++ x)
      with (c :: (a ++ (dollar :: b) ++ x)).
    cbn [indexOf_from isPrefix].
    replace (cu_eqb dollar c) with false.
    + cbn [andb]. rewrite IH by exact Ha. cbn [length]. lia.
    + symmetry. destruct (cu_eqb dollar c) eqn:E; [|reflexivity].
      apply cu_eqb_eq in E. subst c. discriminate.
Qed.

Lemma dollarFree_spec a : dollarFree a = true -> ~ In dollar a.
Proof.
  unfold dollarFree. rewrite forallb_forall. intros H Hin.
  specialize (H dollar Hin). discriminate.
Qed.

Lemma lastIndexOf_dollarFree_after B b V :
  dollarFree (b ++ V) = true ->
  lastIndexOf (B ++ (dollar :: b) ++ V) (dollar :: b) = Z.of_nat (length B).
Proof.
  intros Hfree.
  set (s := B ++ (dollar :: b) ++ V).
  assert (Hocc : occursAt s (dollar :: b) (length B))
    by apply occursAt_of_split.
  assert (Hle : length B <= length s)
    by (unfold s; rewrite length_app; lia).
  destruct (lastIndexOf_occurs s _ _ Hocc Hle) as [k [Hk [Hkl [Hok Hlast]]]].
  rewrite Hk. f_equal.
  destruct (Nat.lt_trichotomy k (length B)) as [Hlt | [Heq | Hgt]];
    [exfalso; apply (Hlast (length B)); assumption | exact Heq |].
  exfalso. unfold occursAt, s in Hok.
  rewrite skipn_app, skipn_all2 in Hok by lia. cbn [app] in Hok.
  remember (k - length B) as i eqn:Ei.
  destruct i as [|i]; [lia|]. cbn [skipn] in Hok.
  apply isPrefix_spec in Hok. destruct Hok as [post Hpost].
  apply (dollarFree_spec _ Hfree).
  rewrite <- (firstn_skipn i (b ++ V)), Hpost.
  apply in_or_app. right. left. reflexivity.
Qed.

Lemma last_three_of_app (words : list jsstring) a b c :
  let parts := words ++ [a; b; c] in
  firstn (length parts - 3) parts = words /\
  nth (length parts - 3) parts [] = a /\
  nth (length parts - 2) parts [] = b /\
  nth (length parts - 1) parts [] = c.
Proof.
  cbv zeta. rewrite length_app. cbn [length].
  replace (length words + 3 - 3) with (length words) by lia.
  replace (length words + 3 - 2) with (length words + 1) by lia.
  replace (length words + 3 - 1) with (length words + 2) by lia.
  rewrite firstn_app, Nat.sub_diag, firstn_all, app_nil_r.
  rewrite !app_nth2 by lia.
  replace (length words - length words) with 0 by lia.
  replace (length words + 1 - length words) with 1 by lia.
  replace (length words + 2 - length words) with 2 by lia.
  repeat split; reflexivity.
Qed.

Lemma dollarFree_app a b :
  dollarFree (a ++ b) = dollarFree a && dollarFree b.
Proof. unfold dollarFree. apply forallb_app. Qed.

Lemma dollarFree_joinSpace ws :
  forallb plainWord ws = true -> dollarFree (joinSpace ws) = true.
Proof.
  induction ws as [|w rest IH]; intros H; [reflexivity|].
  cbn [forallb] in H. apply andb_true_iff in H. destruct H as [Hw Hrest].
  unfold plainWord in Hw. apply andb_true_iff in Hw. destruct Hw as [_ Hw].
  destruct rest as [|w' rest']; [exact Hw|].
  rewrite joinSpace_cons by discriminate.
  rewrite dollarFree_app, Hw. cbn [andb].
  change (space :: joinSpace (w' :: rest'))
    with ([space] ++ joinSpace (w' :: rest')).
  rewrite dollarFree_app, IH by exact Hrest. reflexivity.
Qed.

Lemma plainWords_words ws :
  forallb plainWord ws = true -> forallb isWord ws = true.
Proof.
  rewrite !forallb_forall. intros H w Hw. specialize (H w Hw).
  unfold plainWord in H. apply andb_true_iff in H. apply H.
Qed.

Lemma priceBody_spec b :
  priceBody b = true ->
  forallb isPriceChar b = true /\ b <> []
  /\ Prices.isValidPrice (dollar :: b) = true
  /\ isWord (dollar :: b) = true
  /\ dollarFree b = true.
Proof.
  unfold priceBody. intros H. apply andb_true_iff in H. destruct H as [Hb Hv].
  split; [exact Hb|]. split; [|split; [exact Hv|split]].
  - intros ->. discriminate.
  - unfold isWord, wsFree. cbn [isEmpty negb forallb andb].
    replace (negb (isWhiteSpace dollar)) with true by reflexivity.
    cbn [andb]. rewrite forallb_forall in *. intros c Hc.
    apply negb_true_iff, isPriceChar_not_ws, Hb, Hc.
  - unfold dollarFree. rewrite forallb_forall in *. intros c Hc.
    specialize (Hb c Hc). apply negb_true_iff.
    destruct (cu_eqb c dollar) eqn:E; [|reflexivity].
    apply cu_eqb_eq in E. subst c. discriminate.
Qed.

Lemma isAllDigits_plainWord q : isAllDigits q = true -> plainWord q = true.
Proof.
  intros H. destruct (isAllDigits_spec q H) as [Hne Hd].
  unfold plainWord, isWord, wsFree, dollarFree.
  rewrite (isEmpty_false q Hne). cbn [negb andb].
  rewrite forallb_forall in Hd.
  apply andb_true_iff. split; rewrite forallb_forall; intros c Hc;
    specialize (Hd c Hc); apply negb_true_iff.
  - apply isDigit_not_ws, Hd.
  - destruct (cu_eqb c dollar) eqn:E; [|reflexivity].
    apply cu_eqb_eq in E. subst c. discriminate.
Qed.

Lemma matchAllPrices_space x :
  matchAllPrices 0 (space :: x) = matchAllPrices 0 x.
Proof. rewrite matchAllPrices_step. reflexivity. Qed.

Section WellFormedRow.
Variables (nameWords : list jsstring) (pres qty unit : jsstring).
Variables (b0 b1 b2 : jsstring) (varWords : list jsstring).

Hypothesis Hname_ne : nameWords <> [].
Hypothesis Hname : forallb plainWord nameWords = true.
Hypothesis Hpres : plainWord pres = true.
Hypothesis Hqty : isAllDigits qty = true.
Hypothesis Hunit : plainWord unit = true.
Hypothesis Hb0 : priceBody b0 = true.
Hypothesis Hb1 : priceBody b1 = true.
Hypothesis Hb2 : priceBody b2 = true.
Hypothesis Hvar : forallb plainWord varWords = true.

Local Abbreviation front := (nameWords ++ [pres; qty; unit]).
Local Abbreviation rowLine :=
  (joinSpace (nameWords
              ++ [pres; qty; unit; dollar :: b0; dollar :: b1; dollar :: b2]
              ++ varWords)).
Local Abbreviation tail :=
  (match varWords with [] => [] | _ :: _ => space :: joinSpace varWords end).

Lemma front_plain : forallb plainWord front = true.
Proof.
  rewrite forallb_app, Hname. cbn [forallb andb].
  rewrite Hpres, Hunit, (isAllDigits_plainWord qty Hqty). reflexivity.
Qed.

Lemma rowLine_shape :
  rowLine = joinSpace front ++ space :: (dollar :: b0) ++ space
            :: (dollar :: b1) ++ space :: (dollar :: b2) ++ tail.
Proof.
  replace (nameWords
           ++ [pres; qty; unit; dollar :: b0; dollar :: b1; dollar :: b2]
           ++ varWords)
    with (front ++ [dollar :: b0] ++ [dollar :: b1]
                ++ ((dollar :: b2) :: varWords))
    by (rewrite <- app_assoc; reflexivity).
  rewrite joinSpace_app;
    [|intros E; apply app_eq_nil in E; destruct E; discriminate
     |cbn [app]; discriminate].
  f_equal. f_equal.
  rewrite joinSpace_app by (cbn [app]; discriminate).
  cbn [joinSpace]. f_equal. f_equal.
  rewrite joinSpace_app by (cbn [app]; discriminate).
  cbn [joinSpace]. f_equal. f_equal.
  destruct varWords as [|v vs]; [cbn; rewrite app_nil_r; reflexivity|].
  reflexivity.
Qed.

Lemma rowLine_words :
  forallb isWord
    (nameWords ++ [pres; qty; unit; dollar :: b0; dollar :: b1; dollar :: b2]
     ++ varWords) = true.
Proof.
  rewrite !forallb_app.
  rewrite (plainWords_words _ Hname), (plainWords_words _ Hvar).
  cbn [forallb andb].
  pose proof (plainWords_words [pres; qty; unit]) as Hf.
  cbn [forallb] in Hf.
  rewrite Hpres, Hunit, (isAllDigits_plainWord qty Hqty) in Hf.
  specialize (Hf eq_refl).
  apply andb_true_iff in Hf. destruct Hf as [-> Hf].
  apply andb_true_iff in Hf. destruct Hf as [-> Hf].
  apply andb_true_iff in Hf. destruct Hf as [-> _].
  destruct (priceBody_spec b0 Hb0) as [_ [_ [_ [-> _]]]].
  destruct (priceBody_spec b1 Hb1) as [_ [_ [_ [-> _]]]].
  destruct (priceBody_spec b2 Hb2) as [_ [_ [_ [-> _]]]].
  reflexivity.
Qed.

Lemma rowLine_normalized : Prices.normalize rowLine = rowLine.
Proof. apply canonical_fix, canonical_joinSpace, rowLine_words. Qed.

Lemma tail_dollarFree : dollarFree tail = true.
Proof.
  destruct varWords as [|v vs] eqn:E; [reflexivity|].
  change (space :: joinSpace (v :: vs)) with ([space] ++ joinSpace (v :: vs)).
  rewrite dollarFree_app, dollarFree_joinSpace by exact Hvar. reflexivity.
Qed.

Lemma tail_head :
  match tail with [] => True | c :: _ => isPriceChar c = false end.
Proof. destruct varWords; [exact I | reflexivity]. Qed.

Lemma rowLine_tokens :
  currencyTokens rowLine = [dollar :: b0; dollar :: b1; dollar :: b2].
Proof.
  destruct (priceBody_spec b0 Hb0) as [Hc0 [Hn0 [Hv0 _]]].
  destruct (priceBody_spec b1 Hb1) as [Hc1 [Hn1 [Hv1 _]]].
  destruct (priceBody_spec b2 Hb2) as [Hc2 [Hn2 [Hv2 _]]].
  unfold currencyTokens. rewrite rowLine_shape.
  rewrite dollarFree_no_match by apply dollarFree_joinSpace, front_plain.
  rewrite matchAllPrices_space.
  rewrite price_then_rest; [|assumption|assumption|reflexivity].
  rewrite matchAllPrices_space.
  rewrite price_then_rest; [|assumption|assumption|reflexivity].
  rewrite matchAllPrices_space.
  rewrite price_then_rest; [|assumption|assumption|apply tail_head].
  rewrite <- (app_nil_r tail).
  rewrite dollarFree_no_match by apply tail_dollarFree.
  cbn [matchAllPrices filter]. rewrite Hv0, Hv1, Hv2. reflexivity.
Qed.

Lemma front_canonical : canonical (joinSpace front) /\ joinSpace front <> [].
Proof.
  pose proof (plainWords_words _ front_plain) as Hw. split.
  - apply canonical_joinSpace, Hw.
  - apply joinSpace_nonempty; [|exact Hw].
    intros E. apply app_eq_nil in E. destruct E; discriminate.
Qed.

Lemma rowLine_first_price :
  indexOf rowLine (dollar :: b0)
  = Z.of_nat (length (joinSpace front ++ [space])).
Proof.
  rewrite rowLine_shape.
  replace (joinSpace front ++ space :: (dollar :: b0) ++ space
           :: (dollar :: b1) ++ space :: (dollar :: b2) ++ tail)
    with ((joinSpace front ++ [space]) ++ (dollar :: b0) ++ space
          :: (dollar :: b1) ++ space :: (dollar :: b2) ++ tail)
    by (rewrite <- app_assoc; reflexivity).
  unfold indexOf. rewrite dollarFree_not_prefix; [lia|].
  rewrite dollarFree_app, dollarFree_joinSpace by apply front_plain.
  reflexivity.
Qed.

Lemma rowLine_leadingWords : leadingWords rowLine = front.
Proof.
  unfold leadingWords.
  rewrite rowLine_tokens, rowLine_normalized.
  change (nth 0 (sliceLast3 [dollar :: b0; dollar :: b1; dollar :: b2]) [])
    with (dollar :: b0).
  rewrite rowLine_first_price, substring_firstn by lia.
  rewrite Nat2Z.id.
  destruct front_canonical as [Hc Hne].
  replace (firstn (length (joinSpace front ++ [space])) rowLine)
    with (joinSpace front ++ [space]).
  - rewrite trim_app_ws by (auto; reflexivity).
    apply splitWs_joinSpace; [|apply plainWords_words, front_plain].
    intros E. apply app_eq_nil in E. destruct E; discriminate.
  - rewrite rowLine_shape.
    replace (joinSpace front ++ space :: (dollar :: b0) ++ space
             :: (dollar :: b1) ++ space :: (dollar :: b2) ++ tail)
      with ((joinSpace front ++ [space]) ++ (dollar :: b0) ++ space
            :: (dollar :: b1) ++ space :: (dollar :: b2) ++ tail)
      by (rewrite <- app_assoc; reflexivity).
    rewrite firstn_app, Nat.sub_diag, firstn_all. cbn [firstn].
    rewrite app_nil_r. reflexivity.
Qed.

Lemma rowLine_after_last_price :
  substringFrom rowLine
    (lastIndexOf rowLine (dollar :: b2) + strlen (dollar :: b2))
  = tail.
Proof.
  destruct (priceBody_spec b2 Hb2) as [_ [_ [_ [_ Hf2]]]].
  set (B := joinSpace front ++ space :: (dollar :: b0) ++ space
            :: (dollar :: b1) ++ [space]).
  assert (Hs : rowLine = B ++ (dollar :: b2) ++ tail).
  { rewrite rowLine_shape. unfold B.
    repeat first [rewrite <- app_assoc | progress cbn [app]]. reflexivity. }
  rewrite Hs.
  rewrite lastIndexOf_dollarFree_after
    by (rewrite dollarFree_app, Hf2; apply tail_dollarFree).
  unfold strlen. rewrite substringFrom_skipn by lia.
  replace (Z.to_nat (Z.of_nat (length B) + Z.of_nat (length (dollar :: b2))))
    with (length (B ++ dollar :: b2)) by (rewrite length_app; lia).
  rewrite app_assoc, skipn_app, skipn_all, Nat.sub_diag. reflexivity.
Qed.

Lemma trim_tail : trim tail = joinSpace varWords.
Proof.
  destruct varWords as [|v vs] eqn:E; [reflexivity|].
  transitivity (trim (joinSpace (v :: vs))).
  - unfold trim. cbn [dropWhile].
    replace (isWhiteSpace space) with true by reflexivity. reflexivity.
  - apply trim_joinSpace, plainWords_words, Hvar.
Qed.

(** X4: a row written as a name of one or more words, a presentation,
    an all-digit quantity, a unit, three valid prices and an optional
    variation, all separated by single spaces and with no [$] outside the
    prices, parses to exactly these fields; without a variation the
    record carries ["N/A"]. *)
Theorem parseTableRow_well_formed_row :
  Prices.parseTableRow rowLine =
  Some {| name := joinSpace nameWords;
          presentation := pres;
          quantity := qty;
          unit_ := unit;
          extraQualityPrice := dollar :: b0;
          firstQualityPrice := dollar :: b1;
          unitPrice := dollar :: b2;
          previousDayVariation :=
            if isEmpty (joinSpace varWords) then str "N/A"
            else joinSpace varWords |}.
Proof.
  destruct (priceBody_spec b0 Hb0) as [Hc0 _].
  destruct (priceBody_spec b1 Hb1) as [Hc1 _].
  destruct (priceBody_spec b2 Hb2) as [Hc2 _].
  rewrite parseTableRow_unfold. cbv zeta.
  rewrite rowLine_leadingWords, rowLine_tokens, rowLine_normalized.
  change (sliceLast3 [dollar :: b0; dollar :: b1; dollar :: b2])
    with [dollar :: b0; dollar :: b1; dollar :: b2].
  change (length [dollar :: b0; dollar :: b1; dollar :: b2] <? 3) with false.
  cbn [nth].
  rewrite rowLine_first_price, rowLine_after_last_price.
  destruct (last_three_of_app nameWords pres qty unit)
    as [Hf [Hn3 [Hn2 Hn1]]].
  rewrite Hf, Hn3, Hn2, Hn1.
  assert (Hlen : (length front <? 4) = false).
  { apply Nat.ltb_ge. rewrite length_app. cbn [length].
    destruct nameWords; [congruence | cbn [length]; lia]. }
  rewrite Hlen.
  destruct (Z.of_nat _ =? -1)%Z eqn:Ei; [apply Z.eqb_eq in Ei; lia|].
  unfold plainWord in Hpres, Hunit.
  apply andb_true_iff in Hpres. destruct Hpres as [Hpw _].
  apply andb_true_iff in Hunit. destruct Hunit as [Huw _].
  pose proof (isAllDigits_plainWord qty Hqty) as Hqw.
  unfold plainWord in Hqw. apply andb_true_iff in Hqw. destruct Hqw as [Hqw _].
  pose proof (plainWords_words _ Hname) as Hnw.
  rewrite (isEmpty_false _ (joinSpace_nonempty nameWords Hname_ne Hnw)).
  rewrite (isEmpty_false _ (proj1 (isWord_spec pres Hpw))).
  rewrite (isEmpty_false _ (proj1 (isWord_spec unit Huw))).
  rewrite Hqty. cbn [orb negb].
  rewrite (trim_joinSpace nameWords Hnw), (trim_word pres Hpw),
    (trim_word qty Hqw), (trim_word unit Huw).
  rewrite !cleanPrice_token by assumption.
  rewrite trim_tail.
  rewrite (trim_joinSpace varWords (plainWords_words _ Hvar)).
  reflexivity.
Qed.
End WellFormedRow.

Lemma parseTableRow_well_formed_row_witness :
  Prices.parseTableRow
    (str "ALAS DE POLLO KILO 1 KILO $16,000 $16,500 $17,000 Subio 2%")
  = Some {| name := str "ALAS DE POLLO"; presentation := str "KILO";
            quantity := str "1"; unit_ := str "KILO";
            extraQualityPrice := str "$16,000";
            firstQualityPrice := str "$16,500";
            unitPrice := str "$17,000";
            previousDayVariation := str "Subio 2%" |}.
Proof.
  apply (parseTableRow_well_formed_row
           [str "ALAS"; str "DE"; str "POLLO"] (str "KILO") (str "1") (str "KILO")
           (str "16,000") (str "16,500") (str "17,000")
           [str "Subio"; str "2%"]);
    try reflexivity.
  discriminate.
Defined.


(** ** The table scanner: where records come from *)

Section ScannerRecords.
Variable lower : jsstring -> jsstring.

Local Abbreviation scanLine := (Prices.scanLine lower).
Local Abbreviation scanLines := (Prices.scanLines lower).
Local Abbreviation hasHeaderKeyword := (Prices.hasHeaderKeyword lower).

(** One line adds at most one record, at the end, and only as the result
    of parsing that line; once a record exists, a line with a header
    keyword adds nothing. *)
Lemma scanLine_productos st line :
  productos (scanLine st line) = productos st
  \/ exists row,
       Prices.parseTableRow line = Some row
       /\ productos (scanLine st line) = productos st ++ [row]
       /\ (productos st = [] \/ hasHeaderKeyword line = false).
Proof.
  assert (Hrow : forall st',
             productos (Prices.scanRow lower st' line) = productos st'
             \/ exists row,
                  Prices.parseTableRow line = Some row
                  /\ productos (Prices.scanRow lower st' line)
                     = productos st' ++ [row]
                  /\ (productos st' = [] \/ hasHeaderKeyword line = false)).
  { intros st'. unfold Prices.scanRow.
    destruct (headerFound st' && inTable st'); [|left; reflexivity].
    destruct (hasHeaderKeyword line && (0 <? length (productos st'))) eqn:Eskip;
      [left; reflexivity|].
    destruct (Prices.parseTableRow line) as [row|].
    - right. exists row. split; [reflexivity|]. split; [reflexivity|].
      apply andb_false_iff in Eskip. destruct Eskip as [Hk | Hp];
        [right; exact Hk | left].
      apply Nat.ltb_ge in Hp. destruct (productos st'); [reflexivity|].
      cbn in Hp. lia.
    - left. destruct (_ || _); reflexivity. }
  unfold Prices.scanLine.
  destruct (hasHeaderKeyword line && negb (headerFound st)).
  - destruct (3 <=? _); [left; reflexivity|].
    apply (Hrow {| inTable := inTable st; headerFound := headerFound st;
                   headerLines := headerLines st ++ [line];
                   productos := productos st |}).
  - destruct (headerFound st && negb (inTable st)); [|apply Hrow].
    apply (Hrow {| inTable := inTable st; headerFound := headerFound st;
                   headerLines := []; productos := productos st |}).
Qed.

(** The records added while scanning some lines, with the lines they
    were parsed from. *)
Lemma scanLines_sources lines : forall st,
  exists sources,
    Subsequence sources lines
    /\ map Prices.parseTableRow sources
       = map Some (skipn (length (productos st)) (productos (scanLines st lines)))
    /\ firstn (length (productos st)) (productos (scanLines st lines))
       = productos st
    /\ (productos st <> [] ->
        forallb (fun l => negb (hasHeaderKeyword l)) sources = true)
    /\ (productos st = [] ->
        forallb (fun l => negb (hasHeaderKeyword l)) (tl sources) = true).
Proof.
  induction lines as [|l lines IH]; intros st.
  - exists []. cbn [Prices.scanLines fold_left]. 
    rewrite skipn_all, firstn_all. repeat split; constructor.
  - change (scanLines st (l :: lines)) with (scanLines (scanLine st l) lines).
    destruct (IH (scanLine st l)) as [sources [Hsub [Hmap [Hfirst [Hk1 Hk2]]]]].
    destruct (scanLine_productos st l) as [Hsame | [row [Hp [Happ Hkw]]]].
    + rewrite Hsame in *. exists sources.
      split; [constructor; exact Hsub|]. auto.
    + rewrite Happ in *. rewrite length_app in *. cbn [length] in *.
      set (final := productos (scanLines (scanLine st l) lines)) in *.
      assert (Hlen : length (productos st) + 1 <= length final).
      { pose proof (f_equal (@length _) Hfirst) as Hl.
        rewrite length_firstn, length_app in Hl. cbn [length] in Hl. lia. }
      assert (Hfinal : final = productos st ++ row
                       :: skipn (length (productos st) + 1) final).
      { rewrite <- (firstn_skipn (length (productos st) + 1) final) at 1.
        rewrite Hfirst, <- app_assoc. reflexivity. }
      exists (l :: sources). split; [constructor; exact Hsub|].
      split; [|split; [|split]].
      * rewrite Hfinal at 1.
        rewrite skipn_app, skipn_all, Nat.sub_diag. cbn [app skipn map].
        rewrite Hp, Hmap. reflexivity.
      * rewrite Hfinal. rewrite firstn_app, firstn_all, Nat.sub_diag.
        cbn [firstn]. apply app_nil_r.
      * intros Hne. cbn [forallb].
        destruct Hkw as [Hnil | Hk]; [congruence|]. rewrite Hk. cbn [negb andb].
        apply Hk1. intros E. apply app_eq_nil in E. destruct E; discriminate.
      * intros _. cbn [tl]. apply Hk1.
        intros E. apply app_eq_nil in E. destruct E; discriminate.
Qed.
End ScannerRecords.

Lemma Subsequence_In {A : Type} (l1 l2 : list A) x :
  Subsequence l1 l2 -> In x l1 -> In x l2.
Proof.
  induction 1 as [|y l1 l2 _ IH|y l1 l2 _ IH]; intros Hin.
  - exact Hin.
  - right. apply IH, Hin.
  - destruct Hin as [-> | Hin]; [left; reflexivity | right; apply IH, Hin].
Qed.

(** X5: the records of [extractPrices] are the results of the row
    parser on some of the lines of the text, in the order of the lines,
    one record per such line; every such line but the first is free of
    header keywords. *)
Theorem extractPrices_sources (lower : jsstring -> jsstring) text :
  exists sources,
    Subsequence sources (splitLines text)
    /\ map Prices.parseTableRow sources
       = map Some (Prices.extractPrices lower text)
    /\ forallb (fun l => negb (Prices.hasHeaderKeyword lower l)) (tl sources)
       = true.
Proof.
  destruct (scanLines_sources lower (splitLines text) initialScan)
    as [sources [Hsub [Hmap [_ [_ Hk]]]]].
  exists sources. split; [exact Hsub|]. split; [exact Hmap | apply Hk; reflexivity].
Qed.

Lemma extractPrices_parsed (lower : jsstring -> jsstring) text r :
  In r (Prices.extractPrices lower text) ->
  exists line, In line (splitLines text) /\ Prices.parseTableRow line = Some r.
Proof.
  intros Hin.
  destruct (scanLines_sources lower (splitLines text) initialScan)
    as [sources [Hsub [Hmap _]]].
  cbn [productos initialScan length skipn] in Hmap.
  assert (Hs : In (Some r) (map Prices.parseTableRow sources)).
  { rewrite Hmap. apply in_map, Hin. }
  apply in_map_iff in Hs. destruct Hs as [line [Hp Hl]].
  exists line. split; [eapply Subsequence_In; eassumption | exact Hp].
Qed.

Lemma parseTableRow_prices line r :
  Prices.parseTableRow line = Some r ->
  In (extraQualityPrice r) (currencyTokens line)
  /\ In (firstQualityPrice r) (currencyTokens line)
  /\ In (unitPrice r) (currencyTokens line).
Proof.
  intros Hparse.
  destruct (parseTableRow_success line r Hparse)
    as [pre [p0 [p1 [p2 [parts [Hv [_ [_ [_ [_ [He [Hf [Hu _]]]]]]]]]]]]].
  assert (Htok : forall t, In t [p0; p1; p2] ->
                 In t (currencyTokens line)
                 /\ dollar :: Prices.cleanPrice t = t).
  { intros t Ht.
    assert (Hin : In t (Prices.validPriceTokens line))
      by (rewrite Hv; apply in_or_app; right; exact Ht).
    split; [rewrite <- validPriceTokens_of_line; exact Hin|].
    destruct (validPriceTokens_token line t Hin) as [b [-> [_ Hb]]].
    rewrite cleanPrice_token by exact Hb. reflexivity. }
  destruct (Htok p0 ltac:(simpl; auto)) as [H0 E0].
  destruct (Htok p1 ltac:(simpl; auto)) as [H1 E1].
  destruct (Htok p2 ltac:(simpl; auto)) as [H2 E2].
  rewrite He, Hf, Hu, E0, E1, E2. auto.
Qed.

(** X6: every record returned by [extractPrices] is well formed: a
    non-empty name, a presentation and a unit that are single words, an
    all-digit quantity, three prices that are valid currency tokens, and
    a variation that is not empty. *)
Theorem extractPrices_records_well_formed (lower : jsstring -> jsstring) text r :
  In r (Prices.extractPrices lower text) ->
  name r <> []
  /\ isWord (presentation r) = true
  /\ isAllDigits (quantity r) = true
  /\ isWord (unit_ r) = true
  /\ (forall p,
        In p [extraQualityPrice r; firstQualityPrice r; unitPrice r] ->
        isPriceToken p /\ Prices.isValidPrice p = true)
  /\ previousDayVariation r <> [].
Proof.
  intros Hin. destruct (extractPrices_parsed lower text r Hin) as [line [_ Hp]].
  destruct (parseTableRow_fields line r Hp)
    as [words [Hne [Hl [Hw [Hn [_ [Hv _]]]]]]].
  rewrite Hl in Hw.
  pose proof (forallb_app_l _ _ _ Hw) as Hwords.
  pose proof (forallb_app_r _ _ _ Hw) as Hlast.
  cbn [forallb] in Hlast.
  apply andb_true_iff in Hlast. destruct Hlast as [Hpres Hlast].
  apply andb_true_iff in Hlast. destruct Hlast as [Hqty Hlast].
  apply andb_true_iff in Hlast. destruct Hlast as [Hunit _].
  destruct (proj1 (parseTableRow_succeeds_iff_aux line) (ex_intro _ r Hp))
    as [_ [_ Hq]].
  rewrite Hl in Hq.
  destruct (last_three_of_app words (presentation r) (quantity r) (unit_ r))
    as [_ [_ [Hn2 _]]].
  rewrite Hn2 in Hq.
  split; [rewrite Hn; apply joinSpace_nonempty; assumption|].
  split; [exact Hpres|]. split; [exact Hq|]. split; [exact Hunit|].
  split; [|exact Hv].
  destruct (parseTableRow_prices line r Hp) as [H0 [H1 H2]].
  intros p [<- | [<- | [<- | []]]];
    (split; [eapply currencyTokens_token; eassumption|]);
    match goal with
    | H : In ?p (currencyTokens line) |- Prices.isValidPrice ?p = true =>
        unfold currencyTokens in H; apply filter_In in H; apply H
    end.
Qed.

Lemma scanLines_no_keyword (lower : jsstring -> jsstring) lines : forall st,
  headerFound st = false ->
  (forall l, In l lines -> Prices.hasHeaderKeyword lower l = false) ->
  Prices.scanLines lower st lines = st.
Proof.
  induction lines as [|l lines IH]; intros st Hf Hk; [reflexivity|].
  rewrite scanLines_cons.
  rewrite scanLine_searching_skip by (auto; apply Hk; left; reflexivity).
  apply IH; [exact Hf|]. intros l' Hl'. apply Hk. right. exact Hl'.
Qed.

(** X7: a text none of whose lines contains a header keyword gives no
    record, however many well-formed rows it holds (an empty text
    included). *)
Theorem extractPrices_without_header (lower : jsstring -> jsstring) text :
  (forall l, In l (splitLines text) -> Prices.hasHeaderKeyword lower l = false) ->
  Prices.extractPrices lower text = [].
Proof.
  intros Hk. unfold Prices.extractPrices.
  rewrite scanLines_no_keyword; auto.
Qed.

Lemma extractPrices_without_header_witness :
  Prices.extractPrices toLowerCaseLatin1 (unlines [rowValenton; rowTomate]) = [].
Proof.
  apply extractPrices_without_header.
  intros l Hl. vm_compute in Hl.
  destruct Hl as [<- | [<- | []]]; vm_compute; reflexivity.
Defined.

(** X8: scanning is append-only: the records produced from the first
    lines of a text are kept, in place, whatever lines follow. *)
Theorem scanLines_append_only (lower : jsstring -> jsstring) st xs ys :
  exists more,
    productos (Prices.scanLines lower st (xs ++ ys))
    = productos (Prices.scanLines lower st xs) ++ more.
Proof.
  rewrite scanLines_app.
  destruct (scanLines_sources lower ys (Prices.scanLines lower st xs))
    as [_ [_ [_ [Hfirst _]]]].
  set (p := productos (Prices.scanLines lower st xs)) in *.
  set (final := productos (Prices.scanLines lower (Prices.scanLines lower st xs) ys)) in *.
  exists (skipn (length p) final).
  rewrite <- Hfirst at 1. symmetry. apply firstn_skipn.
Qed.

(** ** The date helper: what it can return *)

Lemma reSearch_some {A : Type} (m : jsstring -> option A) s r :
  reSearch m s = Some r -> exists pre rest, s = pre ++ rest /\ m rest = Some r.
Proof.
  induction s as [|c s IH]; cbn [reSearch]; intros H.
  - destruct (m []) eqn:E; [|discriminate].
    exists [], []. split; [reflexivity | congruence].
  - destruct (m (c :: s)) eqn:E.
    + exists [], (c :: s). split; [reflexivity | congruence].
    + destruct (IH H) as [pre [rest [-> Hr]]].
      exists (c :: pre), rest. split; [reflexivity | exact Hr].
Qed.

Lemma reDigits12_some {A : Type} s (k : jsstring -> jsstring -> option A) r :
  reDigits12 s k = Some r ->
  exists g rest, s = g ++ rest /\ digits12 g /\ k g rest = Some r.
Proof.
  unfold reDigits12, digits12. destruct s as [|a s]; [discriminate|].
  destruct (isDigit a) eqn:Ea; [|discriminate].
  assert (H1 : k [a] s = Some r ->
               exists g rest, a :: s = g ++ rest
                 /\ (forallb isDigit g = true /\ (length g = 1 \/ length g = 2))
                 /\ k g rest = Some r).
  { intros H. exists [a], s. cbn. rewrite Ea. auto. }
  destruct s as [|b s]; [exact H1|].
  destruct (isDigit b) eqn:Eb; [|exact H1].
  destruct (k [a; b] s) eqn:E2; [|exact H1].
  intros H. exists [a; b], s. cbn. rewrite Ea, Eb. split; [reflexivity|].
  split; [auto | congruence].
Qed.

Lemma reDigits4_some {A : Type} s (k : jsstring -> jsstring -> option A) r :
  reDigits4 s k = Some r ->
  exists g rest, s = g ++ rest /\ forallb isDigit g = true /\ length g = 4
                 /\ k g rest = Some r.
Proof.
  unfold reDigits4. destruct s as [|a [|b [|c [|d s]]]]; try discriminate.
  destruct (isDigit a && isDigit b && isDigit c && isDigit d) eqn:E;
    [|discriminate].
  intros H. exists [a; b; c; d], s. cbn [forallb].
  rewrite andb_true_r, !andb_assoc, E. auto.
Qed.

Lemma reChar_some {A : Type} ch s (k : jsstring -> option A) r :
  reChar ch s k = Some r -> exists rest, s = ch :: rest /\ k rest = Some r.
Proof.
  unfold reChar. destruct s as [|c s]; [discriminate|].
  destruct (cu_eqb c ch) eqn:E; [|discriminate].
  apply cu_eqb_eq in E. subst c. intros H. exists s. auto.
Qed.

Lemma reDayMonthYear_groups s d m y :
  Prices.reDayMonthYear s = Some (d, m, y) ->
  digits12 d /\ digits12 m /\ forallb isDigit y = true /\ length y = 4.
Proof.
  unfold Prices.reDayMonthYear. intros H.
  apply reDigits12_some in H. destruct H as [d' [s1 [_ [Hd H]]]].
  apply reChar_some in H. destruct H as [s2 [_ H]].
  apply reDigits12_some in H. destruct H as [m' [s3 [_ [Hm H]]]].
  apply reChar_some in H. destruct H as [s4 [_ H]].
  apply reDigits4_some in H. destruct H as [y' [s5 [_ [Hy [Hl H]]]]].
  inversion H; subst. auto.
Qed.

Lemma reYearMonthDay_groups s whole :
  Prices.reYearMonthDay s = Some whole ->
  exists y m d rest,
    whole = y ++ hyphen :: m ++ hyphen :: d /\ s = whole ++ rest
    /\ forallb isDigit y = true /\ length y = 4 /\ digits12 m /\ digits12 d.
Proof.
  unfold Prices.reYearMonthDay. intros H.
  apply reDigits4_some in H. destruct H as [y [s1 [-> [Hy [Hl H]]]]].
  apply reChar_some in H. destruct H as [s2 [-> H]].
  apply reDigits12_some in H. destruct H as [m [s3 [-> [Hm H]]]].
  apply reChar_some in H. destruct H as [s4 [-> H]].
  apply reDigits12_some in H. destruct H as [d [s5 [-> [Hd H]]]].
  inversion H; subst. exists y, m, d, s5.
  repeat split; try assumption; try apply Hm; try apply Hd.
  repeat first [rewrite <- app_assoc | progress cbn [app]]. reflexivity.
Qed.

Lemma padStart2_digits12 g :
  digits12 g ->
  exists a b, padStart2 g = [a; b] /\ isDigit a = true /\ isDigit b = true.
Proof.
  intros [Hd [Hl | Hl]].
  - destruct g as [|a [|b g]]; try discriminate.
    exists zero_digit, a. cbn in *. rewrite andb_true_r in Hd. auto.
  - destruct g as [|a [|b [|c g]]]; try discriminate.
    exists a, b. cbn in *. rewrite andb_true_r in Hd.
    apply andb_true_iff in Hd. destruct Hd. auto.
Qed.

(** X9: whenever the text holds a date written D/M/YYYY (one or two
    digits of day and month), [extractDate] returns a date in the strict
    form YYYY-MM-DD, padded with zeros, whatever else the text holds. *)
Theorem extractDate_slash_date_padded text :
  reSearch Prices.reDayMonthYear text <> None ->
  exists date,
    Prices.extractDate text = Some date /\ History.dateRegex date = true.
Proof.
  intros Hm. unfold Prices.extractDate.
  destruct (reSearch Prices.reDayMonthYear text) as [[[d m] y]|] eqn:E;
    [|congruence].
  eexists. split; [reflexivity|].
  apply reSearch_some in E. destruct E as [pre [rest [_ E]]].
  apply reDayMonthYear_groups in E. destruct E as [Hd [Hmo [Hy Hl]]].
  destruct (padStart2_digits12 d Hd) as [d1 [d2 [-> [Hd1 Hd2]]]].
  destruct (padStart2_digits12 m Hmo) as [m1 [m2 [-> [Hm1 Hm2]]]].
  destruct y as [|y1 [|y2 [|y3 [|y4 [|y5 y]]]]]; try discriminate.
  cbn [forallb] in Hy. rewrite andb_true_r in Hy.
  apply andb_true_iff in Hy. destruct Hy as [Hy1 Hy].
  apply andb_true_iff in Hy. destruct Hy as [Hy2 Hy].
  apply andb_true_iff in Hy. destruct Hy as [Hy3 Hy4].
  cbn [app History.dateRegex].
  rewrite Hy1, Hy2, Hy3, Hy4, Hm1, Hm2, Hd1, Hd2. reflexivity.
Qed.

Lemma extractDate_slash_date_padded_witness :
  exists date,
    Prices.extractDate (str "Boletin 2025-11-21, publicado el 5/1/2026")
    = Some date /\ History.dateRegex date = true.
Proof.
  apply extractDate_slash_date_padded. vm_compute. discriminate.
Defined.

(** X10: every date [extractDate] returns is a four-digit year, a month
    and a day of one or two digits each, joined by hyphens; a date taken
    from the YYYY-M-D pattern is a piece of the text, copied as it
    stands. *)
Theorem extractDate_shape text date :
  Prices.extractDate text = Some date ->
  (exists y m d,
     date = y ++ hyphen :: m ++ hyphen :: d
     /\ forallb isDigit y = true /\ length y = 4
     /\ digits12 m /\ digits12 d)
  /\ (reSearch Prices.reDayMonthYear text = None ->
      exists pre post, text = pre ++ date ++ post).
Proof.
  unfold Prices.extractDate.
  destruct (reSearch Prices.reDayMonthYear text) as [[[d m] y]|] eqn:E0.
  - intros H. inversion H; subst date; clear H. split; [|discriminate].
    apply reSearch_some in E0. destruct E0 as [pre [rest [_ E0]]].
    apply reDayMonthYear_groups in E0. destruct E0 as [Hd [Hm [Hy Hl]]].
    destruct (padStart2_digits12 d Hd) as [d1 [d2 [Ed [Hd1 Hd2]]]].
    destruct (padStart2_digits12 m Hm) as [m1 [m2 [Em [Hm1 Hm2]]]].
    exists y, (padStart2 m), (padStart2 d).
    rewrite Ed, Em. unfold digits12. cbn [forallb length].
    rewrite Hd1, Hd2, Hm1, Hm2. repeat split; auto.
  - destruct (reSearch Prices.reYearMonthDay text) as [whole|] eqn:E1.
    + intros H. inversion H; subst date; clear H.
      apply reSearch_some in E1. destruct E1 as [pre [rest [Ht E1]]].
      apply reYearMonthDay_groups in E1.
      destruct E1 as [y [m [d [post [Hw [Hrest [Hy [Hl [Hm Hd]]]]]]]]].
      split.
      * exists y, m, d. auto.
      * intros _. exists pre, post. rewrite Ht, Hrest. reflexivity.
    + destruct (reSearch Prices.reDayDeMonthDeYear text); discriminate.
Qed.

Lemma extractDate_shape_witness :
  exists pre post,
    str "Fecha: 2025-1-5 (viernes)" = pre ++ str "2025-1-5" ++ post.
Proof.
  apply (extractDate_shape (str "Fecha: 2025-1-5 (viernes)") (str "2025-1-5")).
  - vm_compute. reflexivity.
  - vm_compute. reflexivity.
Defined.

Lemma reSearch_no_digit {A : Type} (m : jsstring -> option A) s :
  (forall t, match t with [] => True | c :: _ => isDigit c = false end ->
             m t = None) ->
  forallb (fun c => negb (isDigit c)) s = true ->
  reSearch m s = None.
Proof.
  intros Hm. induction s as [|c s IH]; intros H; cbn [reSearch].
  - rewrite Hm by exact I. reflexivity.
  - cbn [forallb] in H. apply andb_true_iff in H. destruct H as [Hc Hs].
    apply negb_true_iff in Hc. rewrite Hm by exact Hc. apply IH, Hs.
Qed.

(** X11: a text without any digit has no date: [extractDate] returns
    [null]. *)
Theorem extractDate_no_digit text :
  forallb (fun c => negb (isDigit c)) text = true ->
  Prices.extractDate text = None.
Proof.
  intros H. apply extractDate_needs_numeric_pattern.
  - apply reSearch_no_digit; [|exact H].
    intros [|c t] Hc; [reflexivity|].
    unfold Prices.reDayMonthYear, reDigits12. rewrite Hc. reflexivity.
  - apply reSearch_no_digit; [|exact H].
    intros [|c t] Hc; [reflexivity|].
    unfold Prices.reYearMonthDay, reDigits4.
    destruct t as [|b [|c' [|d t]]]; try reflexivity.
    rewrite Hc. reflexivity.
Qed.

Lemma extractDate_no_digit_witness :
  Prices.extractDate (str "Boletin diario de precios") = None.
Proof. apply extractDate_no_digit. vm_compute. reflexivity. Defined.

(** ** The range route: days, batches and the report *)

Section RangeFacts.
Variable h : Runtime.Host.

Local Abbreviation enumerateDays := (Range.enumerateDays h).
Local Abbreviation processDay := (Range.processDay h).

(** More fuel does not change a finished enumeration. *)
Lemma enumerateDays_more_fuel fuel : forall current toDate dates fuel',
  enumerateDays fuel current toDate = Some dates ->
  fuel <= fuel' ->
  enumerateDays fuel' current toDate = Some dates.
Proof.
  induction fuel as [|fuel IH]; intros current toDate dates fuel' H Hle.
  - cbn [Range.enumerateDays] in H.
    destruct (current <=? toDate)%Z eqn:E; [discriminate|].
    destruct fuel'; cbn [Range.enumerateDays]; rewrite E; exact H.
  - cbn [Range.enumerateDays] in H.
    destruct fuel' as [|fuel']; [lia|]. cbn [Range.enumerateDays].
    destruct (current <=? toDate)%Z; [|exact H].
    destruct (enumerateDays fuel (Runtime.nextDay h current) toDate)
      as [rest|] eqn:E; [|discriminate].
    rewrite (IH _ _ rest fuel' E) by lia. exact H.
Qed.

Lemma enumerateDays_spec fuel :
  (forall d, (d < Runtime.nextDay h d)%Z) ->
  forall current toDate,
    Z.to_nat (toDate - current + 1) <= fuel ->
    exists dates,
      enumerateDays fuel current toDate = Some dates
      /\ Forall (fun d => (current <= d <= toDate)%Z) dates
      /\ StronglySorted Z.lt dates
      /\ ((current <= toDate)%Z -> exists rest, dates = current :: rest).
Proof.
  intros Hnext.
  induction fuel as [|fuel IH]; intros current toDate Hfuel.
  - cbn [Range.enumerateDays].
    destruct (current <=? toDate)%Z eqn:E; [apply Z.leb_le in E; lia|].
    apply Z.leb_gt in E. exists []. repeat split; try constructor. lia.
  - cbn [Range.enumerateDays].
    destruct (current <=? toDate)%Z eqn:E.
    + apply Z.leb_le in E. specialize (Hnext current).
      destruct (IH (Runtime.nextDay h current) toDate ltac:(lia))
        as [rest [Hr [Hall [Hsorted _]]]].
      rewrite Hr. exists (current :: rest). cbn [option_map].
      split; [reflexivity|].
      assert (Hall' : Forall (fun d => (current < d <= toDate)%Z) rest).
      { eapply Forall_impl; [|exact Hall]. cbn. intros d Hd. lia. }
      split; [|split].
      * constructor; [lia|].
        eapply Forall_impl; [|exact Hall']. cbn. intros d Hd. lia.
      * constructor; [exact Hsorted|].
        eapply Forall_impl; [|exact Hall']. cbn. intros d Hd. lia.
      * intros _. exists rest. reflexivity.
    + apply Z.leb_gt in E. exists []. repeat split; try constructor. lia.
Qed.

(** X12: on a host whose [setDate(getDate() + 1)] moves a date forward,
    the enumeration of the days ends: with one iteration per millisecond
    of the range as fuel, or any larger amount, it gives one and the same
    list, which starts with [from], increases strictly and stays within
    [from .. to]. *)
Theorem enumerateDays_terminates fromDate toDate :
  (forall d, (d < Runtime.nextDay h d)%Z) ->
  (fromDate <= toDate)%Z ->
  exists rest,
    (forall fuel, Z.to_nat (toDate - fromDate + 1) <= fuel ->
                  enumerateDays fuel fromDate toDate = Some (fromDate :: rest))
    /\ Forall (fun d => (fromDate < d <= toDate)%Z) rest
    /\ StronglySorted Z.lt (fromDate :: rest).
Proof.
  intros Hnext Hle.
  destruct (enumerateDays_spec (Z.to_nat (toDate - fromDate + 1)) Hnext
              fromDate toDate (le_n _))
    as [dates [Hd [Hall [Hsorted Hhead]]]].
  destruct (Hhead Hle) as [rest ->].
  exists rest. split; [|split].
  - intros fuel Hfuel. eapply enumerateDays_more_fuel; eassumption.
  - inversion Hsorted as [|? ? _ Hlt]; subst.
    inversion Hall as [|? ? _ Hrest]; subst.
    clear - Hlt Hrest. induction rest as [|d rest IH]; constructor.
    + inversion Hlt; inversion Hrest; subst. lia.
    + inversion Hlt; inversion Hrest; subst. auto.
  - exact Hsorted.
Qed.

Lemma fold_pushResult_fulfilled (tasks : list (nat * Range.DateSummary)) :
  forall summary,
    fold_left Range.pushResult
              (map (fun task => Range.Fulfilled (snd task)) tasks) summary
    = summary ++ map snd tasks.
Proof.
  induction tasks as [|t tasks IH]; intros summary; cbn [map fold_left].
  - symmetry. apply app_nil_r.
  - rewrite IH. cbn [Range.pushResult]. rewrite <- app_assoc. reflexivity.
Qed.

Lemma fold_total tasks : forall total : nat,
  fold_left (fun t (task : nat * Range.DateSummary) => t + fst task) tasks total
  = total + list_sum (map fst tasks).
Proof.
  induction tasks as [|t tasks IH]; intros total; cbn [fold_left map list_sum fold_right].
  - lia.
  - rewrite IH. unfold list_sum. lia.
Qed.

Lemma runBatches_spec dates fuel : forall i summary total,
  length dates - i <= fuel ->
  Range.runBatches h fuel i dates summary total
  = Some (summary ++ map (fun d => snd (processDay d)) (skipn i dates),
          total + list_sum (map (fun d => fst (processDay d)) (skipn i dates))).
Proof.
  induction fuel as [|fuel IH]; intros i summary total Hfuel.
  - cbn [Range.runBatches].
    destruct (i <? length dates) eqn:E; [apply Nat.ltb_lt in E; lia|].
    apply Nat.ltb_ge in E. rewrite skipn_all2 by exact E.
    cbn [map list_sum fold_right]. rewrite app_nil_r, Nat.add_0_r. reflexivity.
  - cbn [Range.runBatches].
    destruct (i <? length dates) eqn:E.
    + rewrite IH by lia.
      rewrite fold_pushResult_fulfilled, fold_total.
      replace (skipn (i + 5) dates) with (skipn 5 (skipn i dates))
        by (rewrite skipn_skipn; f_equal; lia).
      set (rest := skipn i dates).
      assert (Hm : forall (B : Type) (f : Z -> B),
                 map f rest = map f (firstn 5 rest) ++ map f (skipn 5 rest))
        by (intros; rewrite <- map_app, firstn_skipn; reflexivity).
      rewrite (Hm _ (fun d => snd (processDay d))),
        (Hm _ (fun d => fst (processDay d))).
      rewrite list_sum_app, !map_map, <- app_assoc.
      f_equal. f_equal. lia.
    + apply Nat.ltb_ge in E. rewrite skipn_all2 by exact E.
      cbn [map list_sum fold_right]. rewrite app_nil_r, Nat.add_0_r. reflexivity.
Qed.

Lemma runBatches_complete dates :
  Range.runBatches h (length dates) 0 dates [] 0
  = Some (map (fun d => snd (processDay d)) dates,
          list_sum (map (fun d => fst (processDay d)) dates)).
Proof.
  rewrite runBatches_spec by lia. reflexivity.
Qed.

(** X13: the batch loop always ends, and batching is transparent: the
    summary holds exactly one entry per day, the entry of that day's
    task, in the order of the days (never the placeholder of a rejected
    task), and the running total is the sum of what the tasks added. *)
Theorem runBatches_all_days dates :
  Range.runBatches h (length dates) 0 dates [] 0
  = Some (map (fun d => snd (processDay d)) dates,
          list_sum (map (fun d => fst (processDay d)) dates)).
Proof. exact (runBatches_complete dates). Qed.

Lemma processDay_entry day :
  let entry := snd (processDay day) in
  fst (processDay day) = Range.totalProductos entry
  /\ Range.date entry = Runtime.dateLabel h day
  /\ Range.fuente entry = Runtime.pdfUrl h day
  /\ (Range.isSuccess entry = true -> Range.error entry = None)
  /\ (Range.isSuccess entry = false ->
      Range.totalProductos entry = 0 /\ Range.error entry <> None).
Proof.
  cbv zeta. unfold Range.processDay, Range.failed.
  destruct (Runtime.fetch h (Runtime.pdfUrl h day)) as [e|response];
    [cbn; repeat split; auto; discriminate|].
  destruct (negb (Runtime.ok response));
    [cbn; repeat split; auto; discriminate|].
  destruct (Runtime.arrayBuffer response) as [e|buffer];
    [cbn; repeat split; auto; discriminate|].
  destruct (Runtime.pdfParse h buffer) as [e|text];
    cbn; repeat split; auto; discriminate.
Qed.

Lemma filter_partition_length {A : Type} (p : A -> bool) l :
  length (filter p l) + length (filter (fun x => negb (p x)) l) = length l.
Proof.
  induction l as [|x l IH]; [reflexivity|]. cbn [filter].
  destruct (p x); cbn [negb length]; lia.
Qed.

(** X14: in every report of the range route, each day of the range has
    been processed ([processedDays = totalDays]), every day is either
    successful or failed, the total is the sum of the counts of the
    entries, and the entries carry, in order, the labels and the
    addresses of the enumerated days. *)
Theorem processRange_report fuel fromParam toParam fromDate toDate report :
  Range.processRange h fuel fromParam toParam fromDate toDate = Some report ->
  Range.processedDays report = Range.totalDays report
  /\ Range.successfulDays report + Range.failedDays report
     = Range.processedDays report
  /\ Range.reportTotalProductos report
     = list_sum (map Range.totalProductos (Range.summary report))
  /\ exists dates,
       enumerateDays fuel fromDate toDate = Some dates
       /\ map Range.date (Range.summary report)
          = map (Runtime.dateLabel h) dates
       /\ map Range.fuente (Range.summary report)
          = map (Runtime.pdfUrl h) dates.
Proof.
  unfold Range.processRange.
  destruct (enumerateDays fuel fromDate toDate) as [dates|]; [|discriminate].
  rewrite runBatches_complete.
  intros H. inversion H; subst report; clear H. cbn.
  split; [rewrite length_map; reflexivity|].
  split; [apply filter_partition_length|].
  split.
  - rewrite map_map. unfold list_sum. f_equal. apply map_ext. intros d.
    apply (processDay_entry d).
  - exists dates. split; [reflexivity|].
    rewrite !map_map. split; apply map_ext; intros d; apply (processDay_entry d).
Qed.

(** X15: an entry of a report is either a success without an error
    message, or a failure that counts no product and carries an error
    message. *)
Theorem processRange_entries fuel fromParam toParam fromDate toDate report entry :
  Range.processRange h fuel fromParam toParam fromDate toDate = Some report ->
  In entry (Range.summary report) ->
  (Range.isSuccess entry = true /\ Range.error entry = None)
  \/ (Range.isSuccess entry = false /\ Range.totalProductos entry = 0
      /\ Range.error entry <> None).
Proof.
  unfold Range.processRange.
  destruct (enumerateDays fuel fromDate toDate) as [dates|]; [|discriminate].
  rewrite runBatches_complete.
  intros H Hin. inversion H; subst report; clear H. cbn in Hin.
  apply in_map_iff in Hin. destruct Hin as [d [<- _]].
  destruct (processDay_entry d) as [_ [_ [_ [Hs Hf]]]].
  destruct (Range.isSuccess (snd (processDay d))); [left | right]; auto.
Qed.
(** X20: on a host whose [setDate(getDate() + 1)] moves a date
    forward, a range with [from] not after [to] always gets its report,
    given fuel for the enumeration: the report covers at least one day
    and its first entry is the day [from]. *)
Theorem processRange_returns fuel fromParam toParam fromDate toDate :
  (forall d, (d < Runtime.nextDay h d)%Z) ->
  (fromDate <= toDate)%Z ->
  Z.to_nat (toDate - fromDate + 1) <= fuel ->
  exists report rest,
    Range.processRange h fuel fromParam toParam fromDate toDate = Some report
    /\ Range.summary report = snd (processDay fromDate) :: rest
    /\ Range.totalDays report = S (length rest)
    /\ Range.from report = fromParam /\ Range.to report = toParam.
Proof.
  intros Hnext Hle Hfuel.
  destruct (enumerateDays_spec fuel Hnext fromDate toDate Hfuel)
    as [dates [Hd [_ [_ Hhead]]]].
  destruct (Hhead Hle) as [rest ->].
  unfold Range.processRange. rewrite Hd, runBatches_complete.
  eexists. exists (map (fun d => snd (processDay d)) rest).
  split; [reflexivity|]. cbn. rewrite length_map. auto.
Qed.
End RangeFacts.

Lemma enumerateDays_terminates_witness :
  exists rest,
    Range.enumerateDays sampleHost
      (Z.to_nat (1763683200000 - 1763596800000 + 1))
      1763596800000 1763683200000
    = Some (1763596800000%Z :: rest).
Proof.
  destruct (enumerateDays_terminates sampleHost 1763596800000 1763683200000)
    as [rest [Hfuel _]].
  - intros d. change (d < d + 86400000)%Z. lia.
  - lia.
  - exists rest. apply Hfuel. apply le_n.
Defined.

Lemma processRange_report_witness :
  exists report,
    Range.processRange sampleHost 5 (str "2025-11-20") (str "2025-11-21")
      1763596800000 1763683200000 = Some report
    /\ Range.processedDays report = 2
    /\ Range.successfulDays report = 1
    /\ Range.failedDays report = 1
    /\ Range.reportTotalProductos report = 2
    /\ Range.successfulDays report + Range.failedDays report
       = Range.processedDays report.
Proof.
  eexists. split; [vm_compute; reflexivity|].
  do 4 (split; [reflexivity|]).
  apply (processRange_report sampleHost 5 (str "2025-11-20") (str "2025-11-21")
           1763596800000 1763683200000).
  vm_compute. reflexivity.
Defined.

Lemma processRange_entries_witness :
  exists report entry,
    Range.processRange sampleHost 5 (str "2025-11-20") (str "2025-11-21")
      1763596800000 1763683200000 = Some report
    /\ nth_error (Range.summary report) 0 = Some entry
    /\ ((Range.isSuccess entry = true /\ Range.error entry = None)
        \/ (Range.isSuccess entry = false /\ Range.totalProductos entry = 0
            /\ Range.error entry <> None)).
Proof.
  eexists. eexists. split; [vm_compute; reflexivity|].
  split; [reflexivity|].
  eapply (processRange_entries sampleHost 5 (str "2025-11-20") (str "2025-11-21")
            1763596800000 1763683200000).
  - vm_compute. reflexivity.
  - left. reflexivity.
Defined.

(** ** Labels and addresses *)

Lemma year_fourDigits y :
  (1000 <= y <= 9999)%Z -> fourDigits (Runtime.numberToString y) = true.
Proof.
  intros Hy.
  assert (H : forallb (fun n => fourDigits
                                  (Runtime.numberToString (1000 + Z.of_nat n)))
                      (seq 0 (Z.to_nat 9000)) = true)
    by (vm_compute; reflexivity).
  rewrite forallb_forall in H. specialize (H (Z.to_nat (y - 1000))).
  replace (1000 + Z.of_nat (Z.to_nat (y - 1000)))%Z with y in H by lia.
  apply H. apply in_seq. lia.
Qed.

Lemma padded_twoDigits n :
  (0 <= n <= 99)%Z -> twoDigits (padStart2 (Runtime.numberToString n)) = true.
Proof.
  intros Hn.
  assert (H : forallb (fun k => twoDigits
                                  (padStart2 (Runtime.numberToString (Z.of_nat k))))
                      (seq 0 100) = true)
    by (vm_compute; reflexivity).
  rewrite forallb_forall in H. specialize (H (Z.to_nat n)).
  replace (Z.of_nat (Z.to_nat n)) with n in H by lia.
  apply H. apply in_seq. lia.
Qed.

(** X16: for a day whose year has four digits (and whose month and day
    are in their calendar ranges), the date label of the responses has the
    strict form YYYY-MM-DD: it passes the format test both routes apply to
    their date parameters. *)
Theorem dateLabel_well_formed (h : Runtime.Host) day :
  (1000 <= Runtime.getFullYear h day <= 9999)%Z ->
  (0 <= Runtime.getMonth h day <= 11)%Z ->
  (1 <= Runtime.getDate h day <= 31)%Z ->
  History.dateRegex (Runtime.dateLabel h day) = true.
Proof.
  intros Hy Hm Hd.
  pose proof (year_fourDigits _ Hy) as Ey.
  pose proof (padded_twoDigits (Runtime.getMonth h day + 1) ltac:(lia)) as Em.
  pose proof (padded_twoDigits (Runtime.getDate h day) ltac:(lia)) as Ed.
  unfold Runtime.dateLabel, Runtime.yearOf, Runtime.monthOf, Runtime.dayOf.
  destruct (Runtime.numberToString (Runtime.getFullYear h day))
    as [|y1 [|y2 [|y3 [|y4 [|y5 y]]]]]; try discriminate.
  destruct (padStart2 (Runtime.numberToString (Runtime.getMonth h day + 1)))
    as [|m1 [|m2 [|m3 m]]]; try discriminate.
  destruct (padStart2 (Runtime.numberToString (Runtime.getDate h day)))
    as [|d1 [|d2 [|d3 d]]]; try discriminate.
  cbn [fourDigits twoDigits] in *.
  apply andb_true_iff in Ey. destruct Ey as [Ey Ey4].
  apply andb_true_iff in Ey. destruct Ey as [Ey Ey3].
  apply andb_true_iff in Ey. destruct Ey as [Ey1 Ey2].
  apply andb_true_iff in Em. destruct Em as [Em1 Em2].
  apply andb_true_iff in Ed. destruct Ed as [Ed1 Ed2].
  cbn [app History.dateRegex].
  rewrite Ey1, Ey2, Ey3, Ey4, Em1, Em2, Ed1, Ed2. reflexivity.
Qed.

Lemma dateLabel_well_formed_witness :
  History.dateRegex (Runtime.dateLabel sampleHost 1736035200000) = true.
Proof.
  apply dateLabel_well_formed; vm_compute; split; discriminate.
Defined.

(** ** The single-day route *)

Section DailyFacts.
Variable h : Runtime.Host.

(** X17: a [date] parameter that is present but not of the form
    YYYY-MM-DD, or that the host does not accept as a date, is answered
    with status 400 and a message before anything is downloaded or
    parsed. *)
Theorem daily_invalid_date_rejected param :
  param <> [] ->
  History.dateRegex param = false \/ Runtime.dateTime h param = None ->
  exists message,
    Daily.GET h (Some param) = ([], Daily.JsonError 400 message None).
Proof.
  intros Hne Hbad. unfold Daily.GET.
  rewrite (isEmpty_false param Hne).
  destruct (History.dateRegex param) eqn:Er; cbn [negb];
    [|eexists; reflexivity].
  destruct Hbad as [Hbad | Hbad]; [discriminate|].
  rewrite Hbad. eexists. reflexivity.
Qed.

Lemma serve_success day trace fecha n productos url :
  Daily.serve h day = (trace, Daily.JsonPrices fecha n productos url) ->
  url = Runtime.pdfUrl h day
  /\ trace = [Daily.Fetch url; Daily.PdfParse]
  /\ n = length productos
  /\ exists response buffer text,
       Runtime.fetch h url = Runtime.Returns response
       /\ Runtime.ok response = true
       /\ Runtime.arrayBuffer response = Runtime.Returns buffer
       /\ Runtime.pdfParse h buffer = Runtime.Returns text
       /\ productos = Prices.extractPrices (Runtime.toLowerCase h) text
       /\ (fecha = Runtime.dateLabel h day
           \/ Prices.extractDate text = Some fecha).
Proof.
  unfold Daily.serve, Daily.caught.
  destruct (Runtime.fetch h (Runtime.pdfUrl h day)) as [e|response] eqn:Ef;
    [discriminate|].
  destruct (Runtime.ok response) eqn:Eok; cbn [negb]; [|discriminate].
  destruct (Runtime.arrayBuffer response) as [e|buffer] eqn:Eb; [discriminate|].
  destruct (Runtime.pdfParse h buffer) as [e|text] eqn:Ep; [discriminate|].
  intros H. inversion H; subst; clear H.
  repeat split. exists response, buffer, text. repeat split; auto.
  destruct (Prices.extractDate text) as [found|]; [|left; reflexivity].
  destruct (isEmpty found); [left | right]; reflexivity.
Qed.

(** X18: a response with prices is always the outcome of exactly one
    download, of the bulletin address of one day, that answered ok, and of
    one call of the PDF parser on its body: the records are those
    extracted from the parsed text, their number is [totalProductos],
    [fuente] is the address downloaded, and [fecha] is a date found in
    the text or else that day's label. *)
Theorem daily_prices_response dateParam trace fecha n productos url :
  Daily.GET h dateParam = (trace, Daily.JsonPrices fecha n productos url) ->
  exists day response buffer text,
    url = Runtime.pdfUrl h day
    /\ trace = [Daily.Fetch url; Daily.PdfParse]
    /\ Runtime.fetch h url = Runtime.Returns response
    /\ Runtime.ok response = true
    /\ Runtime.arrayBuffer response = Runtime.Returns buffer
    /\ Runtime.pdfParse h buffer = Runtime.Returns text
    /\ productos = Prices.extractPrices (Runtime.toLowerCase h) text
    /\ n = length productos
    /\ (fecha = Runtime.dateLabel h day \/ Prices.extractDate text = Some fecha).
Proof.
  intros H.
  assert (Hday : exists day,
             Daily.serve h day = (trace, Daily.JsonPrices fecha n productos url)).
  { unfold Daily.GET in H. destruct dateParam as [param|]; [|eauto].
    destruct (isEmpty param); [eauto|].
    destruct (negb (History.dateRegex param)); [discriminate|].
    destruct (Runtime.dateTime h param); [eauto | discriminate]. }
  destruct Hday as [day Hday].
  destruct (serve_success day trace fecha n productos url Hday)
    as [Hu [Ht [Hn [response [buffer [text [Hf [Hok [Hb [Hp [Hpr Hfe]]]]]]]]]]].
  exists day, response, buffer, text. repeat split; auto.
Qed.

End DailyFacts.

Lemma daily_invalid_date_rejected_witness :
  exists message,
    Daily.GET sampleHost (Some (str "2025-13-01"))
    = ([], Daily.JsonError 400 message None).
Proof.
  apply daily_invalid_date_rejected; [discriminate|].
  right. vm_compute. reflexivity.
Defined.

Lemma daily_prices_response_witness :
  exists day response buffer text,
    sampleUrl = Runtime.pdfUrl sampleHost day
    /\ [Daily.Fetch sampleUrl; Daily.PdfParse]
       = [Daily.Fetch sampleUrl; Daily.PdfParse]
    /\ Runtime.fetch sampleHost sampleUrl = Runtime.Returns response
    /\ Runtime.ok response = true
    /\ Runtime.arrayBuffer response = Runtime.Returns buffer
    /\ Runtime.pdfParse sampleHost buffer = Runtime.Returns text
    /\ [recordValenton; recordTomate]
       = Prices.extractPrices (Runtime.toLowerCase sampleHost) text
    /\ 2 = length [recordValenton; recordTomate]
    /\ (str "2025-11-21" = Runtime.dateLabel sampleHost day
        \/ Prices.extractDate text = Some (str "2025-11-21")).
Proof.
  apply (daily_prices_response sampleHost (Some (str "2025-11-21"))).
  vm_compute. reflexivity.
Defined.

Lemma processRange_returns_witness :
  exists report rest,
    Range.processRange sampleHost
      (Z.to_nat (1763683200000 - 1763596800000 + 1))
      (str "2025-11-20") (str "2025-11-21") 1763596800000 1763683200000
    = Some report
    /\ Range.summary report
       = snd (Range.processDay sampleHost 1763596800000) :: rest
    /\ Range.totalDays report = S (length rest)
    /\ Range.from report = str "2025-11-20"
    /\ Range.to report = str "2025-11-21".
Proof.
  apply processRange_returns.
  - intros d. change (d < d + 86400000)%Z. lia.
  - lia.
  - apply le_n.
Defined.

Lemma extractPrices_records_well_formed_witness :
  isAllDigits (quantity recordValenton) = true
  /\ isWord (presentation recordValenton) = true.
Proof.
  destruct (extractPrices_records_well_formed toLowerCaseLatin1
              (unlines [lineHeader; rowValenton]) recordValenton)
    as [_ [Hp [Hq _]]].
  - vm_compute. left. reflexivity.
  - split; assumption.
Defined.

(** X21: no record is produced before the header is found: as long as
    the scanner is still looking for the header, the lines seen so far,
    well-formed rows included, have produced nothing. *)
Theorem no_record_before_header (lower : jsstring -> jsstring) lines :
  headerFound (Prices.scanLines lower initialScan lines) = false ->
  productos (Prices.scanLines lower initialScan lines) = [].
Proof.
  intros H. rewrite (scanLines_searching lower lines initialScan H). reflexivity.
Qed.

Lemma no_record_before_header_witness :
  productos (Prices.scanLines toLowerCaseLatin1 initialScan
               [rowValenton; lineNombre; rowTomate]) = [].
Proof.
  apply no_record_before_header. vm_compute. reflexivity.
Defined.
